(** * arithmetic_arranger.py: a shallow embedding and its verification

    The program takes a list of problems such as ["3801 - 2"; "123 + 49"],
    validates each of them and lays them out side by side, one column per
    problem.  It is embedded below function by function, with Python's
    values modelled as follows.

    - A [str] is the list of its Unicode code points ([char] is [N]); [len]
      is its number of code points, as in Python.
    - An [int] is a [Z]; [str(n)] and [int(s)] go through the decimal
      numerals of the Standard Library ([Decimal.uint]).
    - A call either returns or raises: [result A].  The two exceptions the
      program can raise are [IndexError] (a subscript out of range) and
      [ValueError] ([int] on a string that is not a decimal numeral).
    - What [str.split], [str.isnumeric] and [int] need to know about a code
      point is its Unicode class [uclass].  The class of the code points
      below U+0100 is tabulated in [latin1_class]; the class of all others
      is the parameter [ext_class] of the development, so that every theorem
      holds whatever the Unicode database says about them. *)

From Stdlib Require Import String Ascii List ZArith NArith Lia Bool.
From Stdlib Require Import DecimalFacts DecimalPos DecimalN DecimalZ.
Import ListNotations.
Local Open Scope Z_scope.

(** ** Strings *)

Definition char : Set := N.
Definition str : Set := list char.

(** An ASCII literal as a [str]. *)
Definition lit (s : string) : str := map N_of_ascii (list_ascii_of_string s).

Definition len {A : Type} (l : list A) : Z := Z.of_nat (List.length l).

Fixpoint str_eqb (a b : str) : bool :=
  match a, b with
  | [], [] => true
  | x :: a', y :: b' => N.eqb x y && str_eqb a' b'
  | _, _ => false
  end.

(** [s.rjust(width, fill)]: [s] itself when it is already [width] long. *)
Definition rjust (s : str) (width : Z) (fill : char) : str :=
  repeat fill (Z.to_nat (width - len s)) ++ s.

Definition SPACE : char := 32%N.
Definition DASH : char := 45%N.

(** ** Results and exceptions *)

Inductive exn : Set := IndexError | ValueError.

Inductive result (A : Type) : Type :=
| Ret (a : A)
| Raise (e : exn).
Arguments Ret {A} a.
Arguments Raise {A} e.

Definition bind {A B : Type} (m : result A) (k : A -> result B) : result B :=
  match m with
  | Ret a => k a
  | Raise e => Raise e
  end.

Notation "x <- m ;; k" := (bind m (fun x => k))
  (at level 61, m at next level, right associativity).

(** Python's short-circuit [or] and [and] over operands that may raise. *)
Definition por (a b : result bool) : result bool :=
  x <- a ;; if x then Ret true else b.
Definition pand (a b : result bool) : result bool :=
  x <- a ;; if x then b else Ret false.

(** [l[i]], negative subscripts counting from the end. *)
Definition index {A : Type} (l : list A) (i : Z) : result A :=
  let j := if i <? 0 then i + len l else i in
  if (0 <=? j) && (j <? len l)
  then match nth_error l (Z.to_nat j) with
       | Some a => Ret a
       | None => Raise IndexError
       end
  else Raise IndexError.

(** [range(a, b)]. *)
Definition range (a b : Z) : list Z :=
  map (fun k => a + Z.of_nat k) (seq 0 (Z.to_nat (b - a))).

(** The outcome of a loop body: go on with the new state, or leave the
    function with a value. *)
Inductive flow (A : Type) : Type :=
| Continue (a : A)
| Return (v : str).
Arguments Continue {A} a.
Arguments Return {A} v.

(** ** Unicode classes *)

Inductive uclass : Set :=
| USpace                  (* whitespace: a separator for [split] *)
| UDecimal (d : digits)   (* a decimal digit, with its value *)
| UNumeric                (* numeric, but not a decimal digit *)
| UOther.

(** U+0000 to U+00FF.  Whitespace is U+0009-000D, U+001C-0020, U+0085 and
    U+00A0; the decimal digits are "0" to "9"; the superscripts U+00B2,
    U+00B3, U+00B9 and the fractions U+00BC, U+00BD, U+00BE are numeric
    without being decimal digits. *)
Definition latin1_class (c : char) : uclass :=
  match c with
  | 9 | 10 | 11 | 12 | 13 | 28 | 29 | 30 | 31 | 32 | 133 | 160 => USpace
  | 48 => UDecimal d0 | 49 => UDecimal d1 | 50 => UDecimal d2
  | 51 => UDecimal d3 | 52 => UDecimal d4 | 53 => UDecimal d5
  | 54 => UDecimal d6 | 55 => UDecimal d7 | 56 => UDecimal d8
  | 57 => UDecimal d9
  | 178 | 179 | 185 | 188 | 189 | 190 => UNumeric
  | _ => UOther
  end%N.

Definition digit_char (d : digits) : char :=
  match d with
  | d0 => 48 | d1 => 49 | d2 => 50 | d3 => 51 | d4 => 52
  | d5 => 53 | d6 => 54 | d7 => 55 | d8 => 56 | d9 => 57
  end%N.

(** [str(n)] for an int [n]. *)
Definition uint_str (u : Decimal.uint) : str := map digit_char (to_list u).

Definition str_of_int (n : Z) : str :=
  match Z.to_int n with
  | Decimal.Pos u => uint_str u
  | Decimal.Neg u => DASH :: uint_str u
  end.

(** ** Constants of the program *)

Definition PROBLEM_LIMIT : Z := 5.
Definition DIGIT_LIMIT : Z := 10000.
Definition DIGIT_LENGTH_LIMIT : Z := 4.
Definition OP1_IDX : Z := 0.
Definition SIGN_IDX : Z := 1.
Definition OP2_IDX : Z := 2.

Definition TAB : str := lit "    ".
Definition NEW_LINE : str := [10%N].

Definition ERR_TOO_MANY_PROBLEMS : str := lit "Error: Too many problems.".
Definition ERR_INVALID_OPERATOR : str := lit "Error: Operator must be '+' or '-'.".
Definition ERR_NON_DIGITS_PRESENT : str := lit "Error: Numbers must only contain digits.".
Definition ERR_NUMBER_TOO_LONG : str := lit "Error: Numbers cannot be more than four digits.".
Definition ERR_NUMBER_OF_TOKENS_MISMATCH : str :=
  lit "Error: Expected 3 tokens (two operands and an operator), but got a different amount.".
Definition ERR_GENERIC : str := lit "Error: An unexpected error occurred.".

Definition ERR_IO : Z := 1.
Definition ERR_NDP : Z := 2.
Definition ERR_NTL : Z := 3.
Definition ERR_NOTM : Z := 4.
Definition PASS : Z := 0.

(** ** The program *)

Record Equation : Set := mkEquation {
  operand1 : str;
  operator : str;
  operand2 : str;
  solution : Z
}.

(** What [parse_equation] returns: an [Equation] or an int error code. *)
Inductive value : Set :=
| VEquation (eq : Equation)
| VInt (n : Z).

Definition calculate_solution (op1 : Z) (sign : str) (op2 : Z) : Z :=
  if str_eqb sign (lit "+") then op1 + op2 else op1 - op2.

Definition get_longest_operand_len (eq : Equation) : Z :=
  Z.max (len (operand1 eq)) (len (operand2 eq)).

(** The text one equation adds to row [current_line]; [None] is the
    [case _] branch, which leaves the function with [ERR_GENERIC]. *)
Definition row_entry (current_line : Z) (eq : Equation) : option str :=
  let longest_operand_len := get_longest_operand_len eq in
  let row := str_of_int current_line in
  if str_eqb row (lit "1") then
    Some (rjust (operand1 eq) (longest_operand_len + 2) SPACE)
  else if str_eqb row (lit "2") then
    Some (operator eq ++ lit " " ++ rjust (operand2 eq) longest_operand_len SPACE)
  else if str_eqb row (lit "3") then
    Some (rjust [] (longest_operand_len + 2) DASH)
  else if str_eqb row (lit "4") then
    Some (rjust (str_of_int (solution eq)) (longest_operand_len + 2) SPACE)
  else None.

(** The inner loop, over [equation_idx]. *)
Fixpoint line_loop (equations : list Equation) (current_line : Z)
    (idxs : list Z) (line : str) : result (flow str) :=
  match idxs with
  | [] => Ret (Continue line)
  | equation_idx :: idxs' =>
      eq <- index equations equation_idx ;;
      match row_entry current_line eq with
      | None => Ret (Return ERR_GENERIC)
      | Some entry =>
          let line := line ++ entry in
          let line :=
            if negb (equation_idx =? len equations - 1)
            then line ++ TAB
            else line ++ NEW_LINE in
          line_loop equations current_line idxs' line
      end
  end.

(** The outer loop, over [current_line]. *)
Fixpoint rows_loop (equations : list Equation) (r : list Z)
    (equations_string : str) : result str :=
  match r with
  | [] => Ret equations_string
  | current_line :: r' =>
      l <- line_loop equations current_line (range 0 (len equations)) [] ;;
      match l with
      | Return v => Ret v
      | Continue line => rows_loop equations r' (equations_string ++ line)
      end
  end.

Definition format_equations_string (equations : list Equation)
    (show_solutions : bool) : result str :=
  let r := if show_solutions then range 1 5 else range 1 4 in
  rows_loop equations r [].

(** The [match str(ret_val)] of [arithmetic_arranger]. *)
Definition error_message (ret_val : Z) : str :=
  let s := str_of_int ret_val in
  if str_eqb s (lit "1") then ERR_INVALID_OPERATOR
  else if str_eqb s (lit "2") then ERR_NON_DIGITS_PRESENT
  else if str_eqb s (lit "3") then ERR_NUMBER_TOO_LONG
  else if str_eqb s (lit "4") then ERR_NUMBER_OF_TOKENS_MISMATCH
  else ERR_GENERIC.

Section Arranger.

(** The Unicode class of the code points from U+0100 on. *)
Variable ext_class : char -> uclass.

Definition classify (c : char) : uclass :=
  if (c <? 256)%N then latin1_class c else ext_class c.

Definition isspace_char (c : char) : bool :=
  match classify c with USpace => true | _ => false end.

Definition isnumeric_char (c : char) : bool :=
  match classify c with UDecimal _ | UNumeric => true | _ => false end.

Definition decimal_char (c : char) : option digits :=
  match classify c with UDecimal d => Some d | _ => None end.

(** [s.isnumeric()]: at least one character, and all of them numeric. *)
Definition isnumeric (s : str) : bool :=
  match s with
  | [] => false
  | _ :: _ => forallb isnumeric_char s
  end.

(** [s.split()]: the maximal runs of characters that are not whitespace.
    [word] is the run being read. *)
Fixpoint split_from (word : str) (s : str) : list str :=
  match s with
  | [] => match word with [] => [] | _ :: _ => [word] end
  | c :: s' =>
      if isspace_char c
      then match word with
           | [] => split_from [] s'
           | _ :: _ => word :: split_from [] s'
           end
      else split_from (word ++ [c]) s'
  end.

Definition split (s : str) : list str := split_from [] s.

Fixpoint decimal_digits (s : str) : option (list digits) :=
  match s with
  | [] => Some []
  | c :: s' =>
      match decimal_char c, decimal_digits s' with
      | Some d, Some ds => Some (d :: ds)
      | _, _ => None
      end
  end.

(** [int(s)] for a string [s] that holds no whitespace, sign or underscore,
    as is every string the program passes to it (a token of [split] that
    passed [isnumeric]): the value of the numeral when every character is a
    decimal digit, [ValueError] otherwise. *)
Definition int_of_str (s : str) : result Z :=
  match s, decimal_digits s with
  | _ :: _, Some ds => Ret (Z.of_uint (of_list ds))
  | _, _ => Raise ValueError
  end.

Definition parse_equation (string_equation : str) : result value :=
  let tokens := split string_equation in
  c <- por (t <- index tokens OP1_IDX ;; Ret (negb (isnumeric t)))
           (t <- index tokens OP2_IDX ;; Ret (negb (isnumeric t))) ;;
  if c then Ret (VInt ERR_NDP) else
  c <- por (t <- index tokens OP1_IDX ;; Ret (len t >? DIGIT_LENGTH_LIMIT))
           (t <- index tokens OP2_IDX ;; Ret (len t >? DIGIT_LENGTH_LIMIT)) ;;
  if c then Ret (VInt ERR_NTL) else
  c <- pand (t <- index tokens SIGN_IDX ;; Ret (negb (str_eqb t (lit "+"))))
            (t <- index tokens SIGN_IDX ;; Ret (negb (str_eqb t (lit "-")))) ;;
  if c then Ret (VInt ERR_IO) else
  t1 <- index tokens OP1_IDX ;;
  op1 <- int_of_str t1 ;;
  t2 <- index tokens OP2_IDX ;;
  op2 <- int_of_str t2 ;;
  sign <- index tokens SIGN_IDX ;;
  sign' <- index tokens SIGN_IDX ;;
  Ret (VEquation (mkEquation (str_of_int op1) sign (str_of_int op2)
                             (calculate_solution op1 sign' op2))).

(** The [for string_equation in problems] loop. *)
Fixpoint parse_loop (problems : list str) (equations : list Equation)
    : result (flow (list Equation)) :=
  match problems with
  | [] => Ret (Continue equations)
  | string_equation :: problems' =>
      ret_val <- parse_equation string_equation ;;
      match ret_val with
      | VEquation eq => parse_loop problems' (equations ++ [eq])
      | VInt n => Ret (Return (error_message n))
      end
  end.

Definition arithmetic_arranger (problems : list str) (show_solutions : bool)
    : result str :=
  if len problems >? PROBLEM_LIMIT then Ret ERR_TOO_MANY_PROBLEMS else
  l <- parse_loop problems [] ;;
  match l with
  | Return v => Ret v
  | Continue equations => format_equations_string equations show_solutions
  end.

End Arranger.

(** ** The vocabulary of the statements *)

(** The database that knows Latin-1 only, for closed runs on Latin-1
    input (on which [classify] never consults it). *)
Definition latin1_only : char -> uclass := fun _ => UOther.

(** U+00BD, the fraction one half, and U+00B2, the superscript two. *)
Definition ONE_HALF : char := 189%N.
Definition SUPERSCRIPT_TWO : char := 178%N.

(** Entries side by side, [sep] between two of them. *)
Fixpoint join (sep : str) (entries : list str) : str :=
  match entries with
  | [] => []
  | e :: entries' =>
      match entries' with
      | [] => e
      | _ :: _ => e ++ sep ++ join sep entries'
      end
  end.

(** The entry of an equation on a row that has one. *)
Definition entry (current_line : Z) (eq : Equation) : str :=
  match row_entry current_line eq with
  | Some e => e
  | None => []
  end.

(** The rows laid out, by number. *)
Definition rows (show_solutions : bool) : list Z :=
  if show_solutions then [1; 2; 3; 4] else [1; 2; 3].

(** One row of the block: the entries of the equations, four spaces between
    two of them, and a newline at the end. *)
Definition row_text (equations : list Equation) (current_line : Z) : str :=
  join TAB (map (entry current_line) equations) ++ NEW_LINE.

Definition column_width (eq : Equation) : Z :=
  Z.max (len (operand1 eq)) (len (operand2 eq)) + 2.

(** An equation as [parse_equation] makes them: the operator is "+" or "-",
    the operands are the decimal numerals of two non-negative ints and the
    solution is computed from these. *)
Definition well_formed (eq : Equation) : Prop :=
  (operator eq = lit "+" \/ operator eq = lit "-") /\
  exists op1 op2 : Z,
    0 <= op1 /\ 0 <= op2 /\
    operand1 eq = str_of_int op1 /\
    operand2 eq = str_of_int op2 /\
    solution eq = calculate_solution op1 (operator eq) op2.

(** [s] without its leading "0"s. *)
Fixpoint strip_zeros (s : str) : str :=
  match s with
  | [] => []
  | c :: s' => if (c =? 48)%N then strip_zeros s' else s
  end.

(** The numeral [s] without its leading "0"s, or "0" when nothing else is
    left. *)
Definition canonical (s : str) : str :=
  match strip_zeros s with
  | [] => lit "0"
  | _ :: _ => strip_zeros s
  end.

(** [s] with every decimal digit written as the ASCII digit of its value. *)
Definition ascii_digits (ext_class : char -> uclass) (s : str) : str :=
  map (fun c => match decimal_char ext_class c with
                | Some d => digit_char d
                | None => c
                end) s.

(** Written with "0" to "9" only. *)
Definition ascii_numeral (s : str) : Prop :=
  forall c, In c s -> (48 <= c <= 57)%N.

(** No leading "0", the numeral "0" apart. *)
Definition no_leading_zero (s : str) : Prop :=
  s = lit "0" \/ exists c s', s = c :: s' /\ c <> 48%N.

(** * Verification *)

(** ** Strings and subscripts *)

Lemma str_eqb_eq (a b : str) : str_eqb a b = true <-> a = b.
Proof.
  revert b. induction a as [|x a IH]; intros [|y b]; simpl; split;
    try congruence; try reflexivity.
  - intros H. apply andb_true_iff in H. destruct H as [Hx Hab].
    apply N.eqb_eq in Hx. apply IH in Hab. congruence.
  - intros H. injection H as -> ->. rewrite N.eqb_refl. simpl. now apply IH.
Qed.

Lemma len_app {A : Type} (l l' : list A) : len (l ++ l') = len l + len l'.
Proof. unfold len. rewrite length_app. lia. Qed.

Lemma len_nonneg {A : Type} (l : list A) : 0 <= len l.
Proof. unfold len. lia. Qed.

Lemma len_rjust (s : str) (width : Z) (fill : char) :
  len (rjust s width fill) = Z.max (len s) width.
Proof.
  unfold rjust. rewrite len_app. unfold len at 1. rewrite repeat_length.
  pose proof (len_nonneg s). lia.
Qed.

Lemma index_middle {A : Type} (pre : list A) (a : A) (suf : list A) :
  index (pre ++ a :: suf) (len pre) = Ret a.
Proof.
  unfold index.
  assert (Hlen : len (pre ++ a :: suf) = len pre + 1 + len suf).
  { rewrite len_app. unfold len. simpl. lia. }
  pose proof (len_nonneg pre) as Hp. pose proof (len_nonneg suf) as Hs.
  replace (len pre <? 0) with false by (symmetry; apply Z.ltb_ge; lia).
  replace (0 <=? len pre) with true by (symmetry; apply Z.leb_le; lia).
  replace (len pre <? len (pre ++ a :: suf)) with true
    by (symmetry; apply Z.ltb_lt; lia).
  simpl. unfold len. rewrite Nat2Z.id, nth_error_app2, Nat.sub_diag by lia.
  reflexivity.
Qed.

Lemma Forall2_In_right {A B : Type} (R : A -> B -> Prop) (l : list A) (l' : list B) :
  Forall2 R l l' -> forall b, In b l' -> exists a, In a l /\ R a b.
Proof.
  induction 1 as [|a b0 l l' Hab _ IH]; intros b; simpl; [tauto|].
  intros [<-|Hin].
  - exists a. auto.
  - destruct (IH b Hin) as (a' & Ha' & HR). exists a'. auto.
Qed.

(** ** Decimal numerals: how long [str(n)] is *)

Section Numerals.

Import Decimal.

Lemma str_of_int_of_N (m : N) : str_of_int (Z.of_N m) = uint_str (N.to_uint m).
Proof. destruct m; reflexivity. Qed.

Lemma str_of_int_neg (n : Z) :
  n < 0 -> str_of_int n = DASH :: str_of_int (- n).
Proof. destruct n; try lia. intros _. reflexivity. Qed.

Lemma len_uint_str (u : uint) : len (uint_str u) = Z.of_nat (nb_digits u).
Proof. unfold len, uint_str. now rewrite length_map, nb_digits_spec. Qed.

(** A numeral of [k] digits, read least significant digit first, is below
    [10 ^ k]. *)
Lemma of_lu_lt (d : uint) :
  (DecimalPos.Unsigned.of_lu d < 10 ^ N.of_nat (nb_digits d))%N.
Proof.
  induction d; cbn [nb_digits DecimalPos.Unsigned.of_lu];
    [reflexivity
    | rewrite Nat2N.inj_succ, N.pow_succ_r';
      generalize dependent (10 ^ N.of_nat (nb_digits d))%N; intros; lia ..].
Qed.

Lemma of_uint_lt (d : uint) : (N.of_uint d < 10 ^ N.of_nat (nb_digits d))%N.
Proof.
  unfold N.of_uint. rewrite DecimalPos.Unsigned.of_uint_alt.
  rewrite <- (nb_digits_rev d). apply of_lu_lt.
Qed.

(** One more digit at the low end. *)
Lemma low_digit (r : N) (d : uint) :
  (r < 10)%N ->
  exists d' : uint,
    nb_digits d' = S (nb_digits d) /\
    DecimalPos.Unsigned.of_lu d' = (r + 10 * DecimalPos.Unsigned.of_lu d)%N.
Proof.
  intros Hr.
  destruct r as [|p]; [exists (D0 d); split; reflexivity|].
  do 4 (try destruct p as [p|p|]); try lia;
    first [ exists (D1 d); split; [reflexivity | cbn; lia]
          | exists (D2 d); split; [reflexivity | cbn; lia]
          | exists (D3 d); split; [reflexivity | cbn; lia]
          | exists (D4 d); split; [reflexivity | cbn; lia]
          | exists (D5 d); split; [reflexivity | cbn; lia]
          | exists (D6 d); split; [reflexivity | cbn; lia]
          | exists (D7 d); split; [reflexivity | cbn; lia]
          | exists (D8 d); split; [reflexivity | cbn; lia]
          | exists (D9 d); split; [reflexivity | cbn; lia] ].
Qed.

(** Every number below [10 ^ k] has a numeral of exactly [k] digits. *)
Lemma padded_numeral (k : nat) :
  forall m : N, (m < 10 ^ N.of_nat k)%N ->
  exists d : uint, nb_digits d = k /\ DecimalPos.Unsigned.of_lu d = m.
Proof.
  induction k as [|k IH]; intros m Hm.
  - exists Nil. simpl in *. split; [reflexivity | lia].
  - rewrite Nat2N.inj_succ, N.pow_succ_r' in Hm.
    destruct (IH (m / 10)%N) as (d & Hd & Hv).
    { apply N.Div0.div_lt_upper_bound. exact Hm. }
    destruct (low_digit (m mod 10) d) as (d' & Hd' & Hv').
    { apply N.mod_upper_bound. discriminate. }
    exists d'. split; [congruence|].
    rewrite Hv', Hv. rewrite N.add_comm. symmetry. apply N.div_mod. discriminate.
Qed.

Lemma len_str_of_int_N (m : N) :
  len (str_of_int (Z.of_N m)) = Z.of_nat (nb_digits (N.to_uint m)).
Proof. rewrite str_of_int_of_N. apply len_uint_str. Qed.

(** [n < 10 ^ len(str(n))] for [n >= 0]. *)
Lemma str_of_int_upper (n : Z) :
  0 <= n -> n < 10 ^ len (str_of_int n).
Proof.
  intros Hn. rewrite <- (Z2N.id n Hn) at 1 2.
  rewrite len_str_of_int_N.
  pose proof (of_uint_lt (N.to_uint (Z.to_N n))) as H.
  rewrite DecimalN.Unsigned.of_to in H.
  apply N2Z.inj_lt in H. rewrite N2Z.inj_pow in H.
  rewrite nat_N_Z in H. exact H.
Qed.

(** [len(str(n)) <= k] for [0 <= n < 10 ^ k] and [k >= 1]. *)
Lemma str_of_int_len_le (n k : Z) :
  1 <= k -> 0 <= n < 10 ^ k -> len (str_of_int n) <= k.
Proof.
  intros Hk [Hn Hlt]. rewrite <- (Z2N.id n Hn).
  rewrite len_str_of_int_N.
  destruct (padded_numeral (Z.to_nat k) (Z.to_N n)) as (d & Hd & Hv).
  { apply N2Z.inj_lt. rewrite N2Z.inj_pow, nat_N_Z, !Z2N.id, Z2Nat.id by lia.
    exact Hlt. }
  rewrite <- Hv, <- DecimalPos.Unsigned.of_lu_rev.
  change (Pos.of_uint (rev d)) with (N.of_uint (rev d)).
  rewrite DecimalN.Unsigned.to_of.
  assert (Hnil : rev d <> Nil).
  { intros E. apply (f_equal nb_digits) in E. rewrite nb_digits_rev, Hd in E.
    simpl in E. lia. }
  pose proof (nb_digits_unorm (rev d) Hnil) as Hle.
  rewrite nb_digits_rev, Hd in Hle. lia.
Qed.

Lemma len_str_of_int_pos (n : Z) : 1 <= len (str_of_int n).
Proof.
  assert (Hu : forall u, N.to_uint u <> Nil).
  { intros u E. pose proof (DecimalN.Unsigned.to_of (N.to_uint u)) as H.
    rewrite DecimalN.Unsigned.of_to in H. rewrite E in H. discriminate H. }
  destruct (Z.neg_nonneg_cases n) as [Hn|Hn].
  - rewrite str_of_int_neg by exact Hn. unfold len. simpl. lia.
  - rewrite <- (Z2N.id n Hn), len_str_of_int_N.
    specialize (Hu (Z.to_N n)).
    destruct (N.to_uint (Z.to_N n)); [congruence | simpl; lia ..].
Qed.

End Numerals.

(** ** The layout loops *)

Lemma row_entry_rows (current_line : Z) (eq : Equation) :
  In current_line [1; 2; 3; 4] ->
  row_entry current_line eq = Some (entry current_line eq).
Proof.
  intros [<-|[<-|[<-|[<-|[]]]]]; reflexivity.
Qed.

Lemma rows_valid (show_solutions : bool) (current_line : Z) :
  In current_line (rows show_solutions) -> In current_line [1; 2; 3; 4].
Proof. destruct show_solutions; simpl; tauto. Qed.

(** The inner loop, started anywhere in the list of equations, appends the
    entries that remain, [TAB] after each but the last, [NEW_LINE] after the
    last. *)
Lemma line_loop_entries (current_line : Z) :
  In current_line [1; 2; 3; 4] ->
  forall (suf pre : list Equation) (line : str),
    suf <> [] ->
    line_loop (pre ++ suf) current_line
      (map (fun k => len pre + Z.of_nat k) (seq 0 (List.length suf))) line =
    Ret (Continue (line ++ join TAB (map (entry current_line) suf) ++ NEW_LINE)).
Proof.
  intros Hrow. induction suf as [|eq suf IH]; intros pre line Hne; [congruence|].
  cbn [List.length seq map line_loop].
  rewrite Z.add_0_r, index_middle. cbn [bind].
  rewrite (row_entry_rows _ _ Hrow).
  assert (Hlen : len (pre ++ eq :: suf) = len pre + 1 + len suf).
  { rewrite len_app. unfold len. simpl. lia. }
  destruct suf as [|eq' suf'].
  - replace (len pre =? len (pre ++ [eq]) - 1) with true
      by (symmetry; apply Z.eqb_eq; rewrite Hlen; unfold len; simpl; lia).
    simpl. now rewrite <- app_assoc.
  - replace (len pre =? len (pre ++ eq :: eq' :: suf') - 1) with false
      by (symmetry; apply Z.eqb_neq; rewrite Hlen; unfold len; simpl; lia).
    cbn [negb].
    rewrite <- seq_shift, map_map.
    specialize (IH (pre ++ [eq]) ((line ++ entry current_line eq) ++ TAB)).
    rewrite <- app_assoc in IH. cbn [app] in IH.
    erewrite map_ext; [rewrite IH by discriminate|].
    + f_equal. f_equal. cbn [map join]. now rewrite <- !app_assoc.
    + intros k. cbn beta. rewrite len_app. unfold len. simpl. lia.
Qed.

Lemma line_loop_row (current_line : Z) (equations : list Equation) :
  In current_line [1; 2; 3; 4] ->
  equations <> [] ->
  line_loop equations current_line (range 0 (len equations)) [] =
  Ret (Continue (row_text equations current_line)).
Proof.
  intros Hrow Hne.
  pose proof (line_loop_entries current_line Hrow equations [] [] Hne) as H.
  unfold range. rewrite Z.sub_0_r. unfold len at 1. rewrite Nat2Z.id.
  exact H.
Qed.

Lemma rows_loop_rows (equations : list Equation) :
  equations <> [] ->
  forall (r : list Z) (equations_string : str),
    (forall current_line, In current_line r -> In current_line [1; 2; 3; 4]) ->
    rows_loop equations r equations_string =
    Ret (equations_string ++ concat (map (row_text equations) r)).
Proof.
  intros Hne. induction r as [|current_line r IH]; intros acc Hr.
  - simpl. now rewrite List.app_nil_r.
  - cbn [rows_loop]. rewrite line_loop_row by (auto; apply Hr; now left).
    cbn [bind]. rewrite IH by (intros; apply Hr; now right).
    cbn [map concat]. now rewrite app_assoc.
Qed.

Lemma format_equations_string_rows (equations : list Equation) (show_solutions : bool) :
  equations <> [] ->
  format_equations_string equations show_solutions =
  Ret (concat (map (row_text equations) (rows show_solutions))).
Proof.
  intros Hne. unfold format_equations_string.
  replace (if show_solutions then range 1 5 else range 1 4)
    with (rows show_solutions) by (destruct show_solutions; reflexivity).
  rewrite rows_loop_rows; [reflexivity | exact Hne | apply rows_valid].
Qed.

(** ** Parsing *)

Section Parsing.

Variable ext_class : char -> uclass.

(** What a string is when [parse_equation] makes an [Equation] of it. *)
Lemma parse_equation_Equation (s : str) (eq : Equation) :
  parse_equation ext_class s = Ret (VEquation eq) ->
  exists (a op b : str) (da db : list digits),
    index (split ext_class s) OP1_IDX = Ret a /\
    index (split ext_class s) SIGN_IDX = Ret op /\
    index (split ext_class s) OP2_IDX = Ret b /\
    (op = lit "+" \/ op = lit "-") /\
    decimal_digits ext_class a = Some da /\
    decimal_digits ext_class b = Some db /\
    eq = mkEquation (str_of_int (Z.of_uint (of_list da))) op
                    (str_of_int (Z.of_uint (of_list db)))
                    (calculate_solution (Z.of_uint (of_list da)) op
                                        (Z.of_uint (of_list db))).
Proof.
  unfold parse_equation, por, pand. intros H.
  destruct (index (split ext_class s) OP1_IDX) as [a|] eqn:Ha;
    cbn [bind] in H; [|discriminate].
  destruct (isnumeric ext_class a) eqn:Hna; cbn [negb bind] in H; [|discriminate].
  destruct (index (split ext_class s) OP2_IDX) as [b|] eqn:Hb;
    cbn [bind] in H; [|discriminate].
  destruct (isnumeric ext_class b) eqn:Hnb; cbn [negb bind] in H; [|discriminate].
  destruct (len a >? DIGIT_LENGTH_LIMIT) eqn:Hla; cbn [bind] in H; [discriminate|].
  destruct (len b >? DIGIT_LENGTH_LIMIT) eqn:Hlb; cbn [bind] in H; [discriminate|].
  destruct (index (split ext_class s) SIGN_IDX) as [op|] eqn:Hop;
    cbn [bind] in H; [|discriminate].
  assert (Hsign : op = lit "+" \/ op = lit "-").
  { destruct (str_eqb op (lit "+")) eqn:Hp; [left; now apply str_eqb_eq|].
    destruct (str_eqb op (lit "-")) eqn:Hm; [right; now apply str_eqb_eq|].
    cbn [negb bind] in H. discriminate. }
  assert (Hrest :
    (op1 <- int_of_str ext_class a ;;
     op2 <- int_of_str ext_class b ;;
     Ret (VEquation (mkEquation (str_of_int op1) op (str_of_int op2)
                                (calculate_solution op1 op op2)))) =
    Ret (VEquation eq)).
  { destruct (str_eqb op (lit "+")); cbn [negb bind] in H; [exact H|].
    destruct (str_eqb op (lit "-")); cbn [negb bind] in H; [exact H|discriminate]. }
  clear H. unfold int_of_str in Hrest.
  destruct a as [|ca a']; [discriminate|].
  destruct (decimal_digits ext_class (ca :: a')) as [da|] eqn:Hda; [|discriminate].
  destruct b as [|cb b']; [discriminate|].
  destruct (decimal_digits ext_class (cb :: b')) as [db|] eqn:Hdb; [|discriminate].
  cbn [bind] in Hrest. injection Hrest as <-.
  exists (ca :: a'), op, (cb :: b'), da, db. repeat split; auto.
Qed.

(** The three checks of [parse_equation], in the order they are made, on a
    string of three tokens or more. *)
Lemma parse_equation_three_tokens (s a op b : str) (rest : list str) :
  split ext_class s = a :: op :: b :: rest ->
  parse_equation ext_class s =
    if negb (isnumeric ext_class a) || negb (isnumeric ext_class b)
    then Ret (VInt ERR_NDP)
    else if (len a >? DIGIT_LENGTH_LIMIT) || (len b >? DIGIT_LENGTH_LIMIT)
    then Ret (VInt ERR_NTL)
    else if negb (str_eqb op (lit "+")) && negb (str_eqb op (lit "-"))
    then Ret (VInt ERR_IO)
    else
      op1 <- int_of_str ext_class a ;;
      op2 <- int_of_str ext_class b ;;
      Ret (VEquation (mkEquation (str_of_int op1) op (str_of_int op2)
                                 (calculate_solution op1 op op2))).
Proof.
  intros Hsplit. unfold parse_equation. rewrite Hsplit.
  assert (H0 : index (a :: op :: b :: rest) OP1_IDX = Ret a)
    by exact (index_middle [] a (op :: b :: rest)).
  assert (H1 : index (a :: op :: b :: rest) SIGN_IDX = Ret op)
    by exact (index_middle [a] op (b :: rest)).
  assert (H2 : index (a :: op :: b :: rest) OP2_IDX = Ret b)
    by exact (index_middle [a; op] b rest).
  rewrite H0, H1, H2. unfold por, pand. cbn [bind].
  destruct (isnumeric ext_class a); cbn [negb orb bind]; [|reflexivity].
  destruct (isnumeric ext_class b); cbn [negb orb bind]; [|reflexivity].
  destruct (len a >? DIGIT_LENGTH_LIMIT); cbn [orb bind]; [reflexivity|].
  destruct (len b >? DIGIT_LENGTH_LIMIT); cbn [orb bind]; [reflexivity|].
  destruct (str_eqb op (lit "+")); cbn [negb andb bind].
  - destruct (int_of_str ext_class a); cbn [bind]; reflexivity.
  - destruct (str_eqb op (lit "-")); cbn [negb andb bind]; [|reflexivity].
    destruct (int_of_str ext_class a); cbn [bind]; reflexivity.
Qed.

(** The error codes [parse_equation] can return: never [ERR_NOTM]. *)
Lemma parse_equation_codes (s : str) (n : Z) :
  parse_equation ext_class s = Ret (VInt n) ->
  n = ERR_NDP \/ n = ERR_NTL \/ n = ERR_IO.
Proof.
  unfold parse_equation, por, pand. intros H.
  repeat match type of H with
         | bind ?m _ = _ => destruct m; cbn [bind] in H; try discriminate
         | (if ?c then _ else _) = _ => destruct c; cbn [bind] in H; try discriminate
         | context [bind (bind ?m _) _] => destruct m; cbn [bind] in H; try discriminate
         | context [if negb ?c then _ else _] =>
             destruct c; cbn [negb bind] in H; try discriminate
         | context [if (?x >? ?y) then _ else _] =>
             destruct (x >? y); cbn [bind] in H; try discriminate
         end;
    injection H as <-; auto.
Qed.

End Parsing.

(** ** Column widths *)

Lemma calculate_solution_cases (op1 op2 : Z) (sign : str) :
  sign = lit "+" \/ sign = lit "-" ->
  calculate_solution op1 sign op2 = op1 + op2 \/
  calculate_solution op1 sign op2 = op1 - op2.
Proof. intros [->| ->]; [left | right]; reflexivity. Qed.

(** The solution never needs more than one column more than the longest
    operand: a carry for a sum, a sign for a difference. *)
Lemma len_solution (eq : Equation) :
  well_formed eq ->
  len (str_of_int (solution eq)) <= get_longest_operand_len eq + 1.
Proof.
  intros (Hsign & op1 & op2 & H1 & H2 & E1 & E2 & Es).
  unfold get_longest_operand_len. rewrite E1, E2, Es.
  pose proof (str_of_int_upper op1 H1) as U1.
  pose proof (str_of_int_upper op2 H2) as U2.
  pose proof (len_str_of_int_pos op1) as P1.
  pose proof (len_str_of_int_pos op2) as P2.
  set (l1 := len (str_of_int op1)) in *. set (l2 := len (str_of_int op2)) in *.
  set (L := Z.max l1 l2).
  assert (HL1 : 10 ^ l1 <= 10 ^ L) by (apply Z.pow_le_mono_r; lia).
  assert (HL2 : 10 ^ l2 <= 10 ^ L) by (apply Z.pow_le_mono_r; lia).
  assert (HS : 10 ^ (L + 1) = 10 * 10 ^ L)
    by (rewrite Z.pow_add_r by lia; lia).
  destruct (calculate_solution_cases op1 op2 _ Hsign) as [-> | ->].
  - apply str_of_int_len_le; lia.
  - destruct (Z.neg_nonneg_cases (op1 - op2)) as [Hneg|Hpos].
    + rewrite str_of_int_neg by exact Hneg.
      assert (len (str_of_int (- (op1 - op2))) <= L)
        by (apply str_of_int_len_le; lia).
      unfold len in *. cbn [List.length]. lia.
    + assert (len (str_of_int (op1 - op2)) <= L)
        by (apply str_of_int_len_le; lia).
      lia.
Qed.

Lemma entry_width (current_line : Z) (eq : Equation) :
  well_formed eq ->
  In current_line [1; 2; 3; 4] ->
  len (entry current_line eq) = column_width eq.
Proof.
  intros Hwf Hrow. pose proof (len_solution eq Hwf) as Hsol.
  destruct Hwf as (Hsign & _).
  unfold column_width. unfold get_longest_operand_len in Hsol.
  pose proof (len_nonneg (operand1 eq)) as P1.
  pose proof (len_nonneg (operand2 eq)) as P2.
  destruct Hrow as [<-|[<-|[<-|[<-|[]]]]].
  - change (entry 1 eq)
      with (rjust (operand1 eq) (get_longest_operand_len eq + 2) SPACE).
    rewrite len_rjust. unfold get_longest_operand_len. lia.
  - change (entry 2 eq)
      with (operator eq ++ lit " " ++
            rjust (operand2 eq) (get_longest_operand_len eq) SPACE).
    rewrite !len_app, len_rjust. unfold get_longest_operand_len.
    assert (len (operator eq) = 1) by (destruct Hsign as [-> | ->]; reflexivity).
    change (len (lit " ")) with 1. lia.
  - change (entry 3 eq) with (rjust [] (get_longest_operand_len eq + 2) DASH).
    rewrite len_rjust. unfold get_longest_operand_len.
    change (len (@nil char)) with 0. lia.
  - change (entry 4 eq)
      with (rjust (str_of_int (solution eq)) (get_longest_operand_len eq + 2) SPACE).
    rewrite len_rjust. unfold get_longest_operand_len. lia.
Qed.

(** An entry stays on its line: it is made of spaces, dashes, digits and
    the operator. *)
Lemma In_rjust (c : char) (s : str) (width : Z) (fill : char) :
  In c (rjust s width fill) -> c = fill \/ In c s.
Proof.
  unfold rjust. intros H. apply in_app_or in H. destruct H as [H|H]; [|now right].
  left. now apply repeat_spec in H.
Qed.

Lemma In_str_of_int (c : char) (n : Z) :
  In c (str_of_int n) -> c = DASH \/ exists d, c = digit_char d.
Proof.
  unfold str_of_int, uint_str.
  destruct (Z.to_int n) as [u|u]; cbn [In]; intros H.
  - right. apply in_map_iff in H. destruct H as (d & <- & _). now exists d.
  - destruct H as [<-|H]; [now left|].
    right. apply in_map_iff in H. destruct H as (d & <- & _). now exists d.
Qed.

Lemma str_of_int_one_line (n : Z) : ~ In 10%N (str_of_int n).
Proof.
  intros H. apply In_str_of_int in H. destruct H as [H|[d H]]; [discriminate|].
  destruct d; discriminate.
Qed.

Lemma entry_one_line (current_line : Z) (eq : Equation) :
  well_formed eq ->
  In current_line [1; 2; 3; 4] ->
  ~ In 10%N (entry current_line eq).
Proof.
  intros (Hsign & op1 & op2 & _ & _ & E1 & E2 & _) Hrow Hin.
  destruct Hrow as [<-|[<-|[<-|[<-|[]]]]].
  - change (entry 1 eq)
      with (rjust (operand1 eq) (get_longest_operand_len eq + 2) SPACE) in Hin.
    apply In_rjust in Hin. destruct Hin as [?|Hin]; [discriminate|].
    rewrite E1 in Hin. now apply str_of_int_one_line in Hin.
  - change (entry 2 eq)
      with (operator eq ++ lit " " ++
            rjust (operand2 eq) (get_longest_operand_len eq) SPACE) in Hin.
    apply in_app_or in Hin. destruct Hin as [Hin|Hin].
    + destruct Hsign as [Hs|Hs]; rewrite Hs in Hin;
        cbn in Hin; destruct Hin as [?|[]]; discriminate.
    + cbn [lit list_ascii_of_string map app] in Hin.
      destruct Hin as [?|Hin]; [discriminate|].
      apply In_rjust in Hin. destruct Hin as [?|Hin]; [discriminate|].
      rewrite E2 in Hin. now apply str_of_int_one_line in Hin.
  - change (entry 3 eq) with (rjust [] (get_longest_operand_len eq + 2) DASH) in Hin.
    apply In_rjust in Hin. destruct Hin as [?|[]]; discriminate.
  - change (entry 4 eq)
      with (rjust (str_of_int (solution eq)) (get_longest_operand_len eq + 2) SPACE)
      in Hin.
    apply In_rjust in Hin. destruct Hin as [?|Hin]; [discriminate|].
    now apply str_of_int_one_line in Hin.
Qed.

(** ** What is kept of an operand token *)

Lemma strip_zeros_digits (ds : list digits) :
  map digit_char (lnzhead ds) = strip_zeros (map digit_char ds).
Proof.
  induction ds as [|d ds IH]; [reflexivity|].
  destruct d; cbn [lnzhead map strip_zeros]; try reflexivity. exact IH.
Qed.

(** [str(int(s))] for a numeral [s] of digits [ds]. *)
Lemma str_of_int_of_digits (ds : list digits) :
  str_of_int (Z.of_uint (of_list ds)) = canonical (map digit_char ds).
Proof.
  unfold Z.of_uint. change (Pos.of_uint (of_list ds)) with (N.of_uint (of_list ds)).
  rewrite str_of_int_of_N, DecimalN.Unsigned.to_of.
  unfold uint_str. rewrite unorm_spec, to_list_of_list.
  unfold canonical, lunorm. rewrite <- strip_zeros_digits.
  destruct (lnzhead ds); reflexivity.
Qed.

Lemma canonical_no_leading_zero (s : str) :
  no_leading_zero s -> canonical s = s.
Proof.
  intros [-> | (c & s' & -> & Hc)]; [reflexivity|].
  unfold canonical. cbn [strip_zeros].
  apply N.eqb_neq in Hc. now rewrite Hc.
Qed.

Lemma ascii_digit_cases (c : char) :
  (48 <= c <= 57)%N -> exists d, c = digit_char d.
Proof.
  intros Hc.
  destruct c as [|p]; [lia|].
  do 6 (try destruct p as [p|p|]); try lia;
    first [ now exists d0 | now exists d1 | now exists d2 | now exists d3
          | now exists d4 | now exists d5 | now exists d6 | now exists d7
          | now exists d8 | now exists d9 ].
Qed.

Section Operands.

Variable ext_class : char -> uclass.

Lemma decimal_char_digit_char (d : digits) :
  decimal_char ext_class (digit_char d) = Some d.
Proof. destruct d; reflexivity. Qed.

Lemma decimal_digits_ascii (s : str) (ds : list digits) :
  decimal_digits ext_class s = Some ds ->
  map digit_char ds = ascii_digits ext_class s.
Proof.
  revert ds. induction s as [|c s IH]; intros ds H.
  - injection H as <-. reflexivity.
  - cbn [decimal_digits] in H.
    destruct (decimal_char ext_class c) as [d|] eqn:Hc; [|discriminate].
    destruct (decimal_digits ext_class s) as [ds'|]; [|discriminate].
    injection H as <-. cbn [map ascii_digits]. rewrite Hc.
    f_equal. now apply IH.
Qed.

Lemma ascii_digits_ascii_numeral (s : str) :
  ascii_numeral s -> ascii_digits ext_class s = s.
Proof.
  induction s as [|c s IH]; intros H; [reflexivity|].
  cbn [ascii_digits map].
  destruct (ascii_digit_cases c) as [d ->]; [apply H; now left|].
  rewrite decimal_char_digit_char. f_equal.
  apply IH. intros c' Hc'. apply H. now right.
Qed.

(** C6, amended.  The operands kept in the [Equation] are [str(int(token))]:
    the digits of the token, as ASCII digits, without leading zeros.  They
    are the tokens themselves when these are written in ASCII digits with no
    leading zero.  The operator is kept as it is. *)
Theorem C6_operands_canonical (s : str) (eq : Equation) :
  parse_equation ext_class s = Ret (VEquation eq) ->
  exists a op b : str,
    index (split ext_class s) OP1_IDX = Ret a /\
    index (split ext_class s) SIGN_IDX = Ret op /\
    index (split ext_class s) OP2_IDX = Ret b /\
    operand1 eq = canonical (ascii_digits ext_class a) /\
    operator eq = op /\
    operand2 eq = canonical (ascii_digits ext_class b) /\
    (ascii_numeral a -> no_leading_zero a -> operand1 eq = a) /\
    (ascii_numeral b -> no_leading_zero b -> operand2 eq = b).
Proof.
  intros H. apply parse_equation_Equation in H.
  destruct H as (a & op & b & da & db & Ha & Hop & Hb & _ & Hda & Hdb & ->).
  exists a, op, b. cbn [operand1 operand2 operator].
  rewrite !str_of_int_of_digits.
  rewrite (decimal_digits_ascii _ _ Hda), (decimal_digits_ascii _ _ Hdb).
  repeat split; auto.
  - intros Hasc Hnz. rewrite ascii_digits_ascii_numeral by exact Hasc.
    now apply canonical_no_leading_zero.
  - intros Hasc Hnz. rewrite ascii_digits_ascii_numeral by exact Hasc.
    now apply canonical_no_leading_zero.
Qed.

(** C9.  The solution is the sum for "+" and the difference for "-"; a
    difference below zero is written on the solution row with "-" in front
    of its absolute value, after the padding. *)
Theorem C9_evaluator (op1 op2 : Z) :
  0 <= op1 -> 0 <= op2 ->
  calculate_solution op1 (lit "+") op2 = op1 + op2 /\
  calculate_solution op1 (lit "-") op2 = op1 - op2 /\
  (op1 < op2 ->
   forall eq : Equation,
     solution eq = calculate_solution op1 (lit "-") op2 ->
     solution eq < 0 /\
     exists pad : nat,
       row_entry 4 eq = Some (repeat SPACE pad ++ DASH :: str_of_int (op2 - op1))).
Proof.
  intros H1 H2. split; [reflexivity|]. split; [reflexivity|].
  intros Hlt eq Hsol.
  change (calculate_solution op1 (lit "-") op2) with (op1 - op2) in Hsol.
  split; [lia|].
  exists (Z.to_nat (get_longest_operand_len eq + 2 - len (str_of_int (solution eq)))).
  change (row_entry 4 eq)
    with (Some (rjust (str_of_int (solution eq)) (get_longest_operand_len eq + 2) SPACE)).
  unfold rjust. rewrite Hsol at 2. rewrite (str_of_int_neg (op1 - op2)) by lia.
  do 4 f_equal. lia.
Qed.

End Operands.

(** ** Arranging valid problems *)

Section Arrangement.

Variable ext_class : char -> uclass.

Lemma parse_equation_well_formed (s : str) (eq : Equation) :
  parse_equation ext_class s = Ret (VEquation eq) -> well_formed eq.
Proof.
  intros H. apply parse_equation_Equation in H.
  destruct H as (a & op & b & da & db & _ & _ & _ & Hsign & _ & _ & ->).
  split; [exact Hsign|].
  exists (Z.of_uint (of_list da)), (Z.of_uint (of_list db)).
  unfold Z.of_uint. cbn [operand1 operand2 operator solution].
  repeat split; try reflexivity; apply N2Z.is_nonneg.
Qed.

Lemma parse_loop_valid (problems : list str) (equations : list Equation) :
  Forall2 (fun s eq => parse_equation ext_class s = Ret (VEquation eq))
          problems equations ->
  forall acc : list Equation,
    parse_loop ext_class problems acc = Ret (Continue (acc ++ equations)).
Proof.
  induction 1 as [|s eq problems equations Hs _ IH]; intros acc.
  - simpl. now rewrite List.app_nil_r.
  - cbn [parse_loop]. rewrite Hs. cbn [bind]. rewrite IH.
    now rewrite <- app_assoc.
Qed.

(** C7.  The block for one to five valid problems: three rows, or four with
    the solutions; each row holds one entry per equation, with four spaces
    between two entries and a newline after the last; every entry of an
    equation is as wide as its longest operand plus two, and holds no
    newline of its own. *)
Theorem C7_block_structure (problems : list str) (equations : list Equation)
    (show_solutions : bool) :
  (1 <= List.length problems <= 5)%nat ->
  Forall2 (fun s eq => parse_equation ext_class s = Ret (VEquation eq))
          problems equations ->
  arithmetic_arranger ext_class problems show_solutions =
    Ret (concat (map (row_text equations) (rows show_solutions))) /\
  List.length (rows show_solutions) = (if show_solutions then 4 else 3)%nat /\
  (forall current_line, row_text equations current_line =
     join TAB (map (entry current_line) equations) ++ NEW_LINE) /\
  TAB = [SPACE; SPACE; SPACE; SPACE] /\
  (forall current_line eq,
     In current_line (rows show_solutions) -> In eq equations ->
     len (entry current_line eq) =
       Z.max (len (operand1 eq)) (len (operand2 eq)) + 2 /\
     ~ In 10%N (entry current_line eq)).
Proof.
  intros Hlen Hvalid.
  split; [|split; [|split; [|split]]]; try reflexivity.
  - unfold arithmetic_arranger.
    replace (len problems >? PROBLEM_LIMIT) with false
      by (symmetry; rewrite Z.gtb_ltb; apply Z.ltb_ge; unfold len, PROBLEM_LIMIT; lia).
    rewrite (parse_loop_valid _ _ Hvalid). cbn [bind app].
    apply format_equations_string_rows.
    apply Forall2_length in Hvalid. destruct equations; [simpl in *; lia | discriminate].
  - now destruct show_solutions.
  - intros current_line eq Hrow Heq.
    apply rows_valid in Hrow.
    destruct (Forall2_In_right _ _ _ Hvalid eq Heq) as (s & _ & Hs).
    apply parse_equation_well_formed in Hs.
    split; [now apply (entry_width current_line eq) | now apply entry_one_line].
Qed.

(** What [parse_loop] can leave the function with: one of three messages. *)
Lemma parse_loop_Return (problems : list str) :
  forall (acc : list Equation) (v : str),
    parse_loop ext_class problems acc = Ret (Return v) ->
    v = ERR_NON_DIGITS_PRESENT \/ v = ERR_NUMBER_TOO_LONG \/ v = ERR_INVALID_OPERATOR.
Proof.
  induction problems as [|s problems IH]; intros acc v H; [discriminate|].
  cbn [parse_loop] in H.
  destruct (parse_equation ext_class s) as [[eq|n]|] eqn:Hs; cbn [bind] in H;
    [now apply IH in H | | discriminate].
  injection H as <-.
  apply parse_equation_codes in Hs. destruct Hs as [-> | [-> | ->]]; auto.
Qed.

(** A block that is not empty starts with the padding of its first entry. *)
Lemma format_equations_string_first (eq : Equation) (equations : list Equation)
    (show_solutions : bool) :
  exists rest : str,
    format_equations_string (eq :: equations) show_solutions = Ret (SPACE :: rest).
Proof.
  rewrite format_equations_string_rows by discriminate.
  assert (Hentry : exists rest, entry 1 eq = SPACE :: rest).
  { change (entry 1 eq)
      with (rjust (operand1 eq) (get_longest_operand_len eq + 2) SPACE).
    unfold rjust, get_longest_operand_len.
    destruct (Z.to_nat (Z.max (len (operand1 eq)) (len (operand2 eq)) + 2
                        - len (operand1 eq))) as [|k] eqn:Hk; [lia|].
    cbn [repeat app]. eauto. }
  destruct Hentry as [rest Hrest].
  assert (Hrows : exists r, rows show_solutions = 1 :: r)
    by (destruct show_solutions; cbn; eauto).
  destruct Hrows as [r ->]. cbn [map concat]. unfold row_text at 1.
  cbn [map join]. rewrite Hrest.
  destruct (map (entry 1) equations); cbn [app]; eauto.
Qed.

(** Every outcome of [arithmetic_arranger]: an exception, one of four error
    messages, the empty string, or a block that starts with a space.  The
    messages for a wrong number of tokens and for an unexpected error are
    never returned. *)
Theorem arithmetic_arranger_outcomes (problems : list str) (show_solutions : bool) :
  (exists e, arithmetic_arranger ext_class problems show_solutions = Raise e) \/
  arithmetic_arranger ext_class problems show_solutions = Ret ERR_TOO_MANY_PROBLEMS \/
  arithmetic_arranger ext_class problems show_solutions = Ret ERR_NON_DIGITS_PRESENT \/
  arithmetic_arranger ext_class problems show_solutions = Ret ERR_NUMBER_TOO_LONG \/
  arithmetic_arranger ext_class problems show_solutions = Ret ERR_INVALID_OPERATOR \/
  arithmetic_arranger ext_class problems show_solutions = Ret [] \/
  (exists rest, arithmetic_arranger ext_class problems show_solutions = Ret (SPACE :: rest)).
Proof.
  unfold arithmetic_arranger.
  destruct (len problems >? PROBLEM_LIMIT); [auto|].
  destruct (parse_loop ext_class problems []) as [[equations|v]|e] eqn:Hloop;
    cbn [bind].
  - destruct equations as [|eq equations].
    + do 5 right. left. now destruct show_solutions.
    + do 6 right. apply format_equations_string_first.
  - apply parse_loop_Return in Hloop. destruct Hloop as [-> | [-> | ->]]; auto 6.
  - left. eauto.
Qed.

End Arrangement.

(** ** One problem of three tokens or more, with operands in decimal digits *)

Section Tokens.

Variable ext_class : char -> uclass.

(** No token of [split] is empty. *)
Lemma split_from_nonempty (s : str) :
  forall word : str, Forall (fun t => t <> []) (split_from ext_class word s).
Proof.
  induction s as [|c s IH]; intros word; cbn [split_from].
  - destruct word; repeat constructor. discriminate.
  - destruct (isspace_char ext_class c); [|apply IH].
    destruct word; [apply IH|]. constructor; [discriminate | apply IH].
Qed.

Lemma decimal_digits_forall_numeric (s : str) (ds : list digits) :
  decimal_digits ext_class s = Some ds ->
  forallb (isnumeric_char ext_class) s = true.
Proof.
  revert ds. induction s as [|c s IH]; intros ds H; [reflexivity|].
  cbn [decimal_digits] in H. cbn [forallb].
  destruct (decimal_char ext_class c) as [d|] eqn:Hc; [|discriminate].
  destruct (decimal_digits ext_class s) as [ds'|]; [|discriminate].
  rewrite (IH ds' eq_refl), andb_true_r.
  unfold decimal_char in Hc. unfold isnumeric_char.
  now destruct (classify ext_class c).
Qed.

Lemma decimal_token_isnumeric (t : str) (ds : list digits) :
  t <> [] -> decimal_digits ext_class t = Some ds -> isnumeric ext_class t = true.
Proof.
  intros Hne H. destruct t as [|c t]; [congruence|].
  exact (decimal_digits_forall_numeric _ _ H).
Qed.

(** The error code of a problem whose two operand tokens are in decimal
    digits: the length is looked at before the operator. *)
Lemma parse_equation_decimal_operands (s a op b : str) (rest : list str)
    (da db : list digits) :
  split ext_class s = a :: op :: b :: rest ->
  decimal_digits ext_class a = Some da ->
  decimal_digits ext_class b = Some db ->
  (4 < len a \/ 4 < len b -> parse_equation ext_class s = Ret (VInt ERR_NTL)) /\
  (len a <= 4 -> len b <= 4 -> op <> lit "+" -> op <> lit "-" ->
   parse_equation ext_class s = Ret (VInt ERR_IO)).
Proof.
  intros Hsplit Hda Hdb.
  pose proof (split_from_nonempty s []) as Hne. fold (split ext_class s) in Hne.
  rewrite Hsplit in Hne.
  assert (Ha : isnumeric ext_class a = true).
  { apply (decimal_token_isnumeric a da); [|exact Hda].
    now inversion Hne. }
  assert (Hb : isnumeric ext_class b = true).
  { apply (decimal_token_isnumeric b db); [|exact Hdb].
    inversion Hne as [|? ? _ H1]. inversion H1 as [|? ? _ H2]. now inversion H2. }
  unfold parse_equation. rewrite Hsplit.
  assert (H0 : index (a :: op :: b :: rest) OP1_IDX = Ret a)
    by exact (index_middle [] a (op :: b :: rest)).
  assert (H1 : index (a :: op :: b :: rest) SIGN_IDX = Ret op)
    by exact (index_middle [a] op (b :: rest)).
  assert (H2 : index (a :: op :: b :: rest) OP2_IDX = Ret b)
    by exact (index_middle [a; op] b rest).
  rewrite H0, H1, H2.
  unfold por, pand, DIGIT_LENGTH_LIMIT. cbn [bind]. rewrite Ha, Hb. cbn [negb bind].
  split.
  - intros Hlong.
    destruct (len a >? 4) eqn:Hla; cbn [bind]; [reflexivity|].
    destruct (len b >? 4) eqn:Hlb; cbn [bind]; [reflexivity|].
    rewrite Z.gtb_ltb in Hla, Hlb. apply Z.ltb_ge in Hla, Hlb. lia.
  - intros Hla Hlb Hp Hm.
    replace (len a >? 4) with false by (symmetry; rewrite Z.gtb_ltb; apply Z.ltb_ge; lia).
    replace (len b >? 4) with false by (symmetry; rewrite Z.gtb_ltb; apply Z.ltb_ge; lia).
    cbn [bind].
    destruct (str_eqb op (lit "+")) eqn:Ep; [apply str_eqb_eq in Ep; congruence|].
    destruct (str_eqb op (lit "-")) eqn:Em; [apply str_eqb_eq in Em; congruence|].
    reflexivity.
Qed.

Lemma single_problem_error (s : str) (n : Z) (show_solutions : bool) :
  parse_equation ext_class s = Ret (VInt n) ->
  arithmetic_arranger ext_class [s] show_solutions = Ret (error_message n).
Proof.
  intros H. unfold arithmetic_arranger.
  change (len [s] >? PROBLEM_LIMIT) with false.
  cbn [parse_loop]. now rewrite H.
Qed.

End Tokens.

(** ** Runs on concrete inputs *)

Section Runs.

Variable ext_class : char -> uclass.

(** C1.  [parse_equation] never counts its tokens.  With fewer than three
    tokens the subscript [tokens[OP2_IDX]] (or [tokens[OP1_IDX]], on a blank
    string) raises [IndexError]; a one-token expression whose token is not
    numeric reports the non-digit error; with more than three tokens, those
    after the third are ignored and the problem is arranged. *)
Theorem C1_token_count_not_checked :
  arithmetic_arranger ext_class [lit "1 +"] false = Raise IndexError /\
  arithmetic_arranger ext_class [lit "   "] false = Raise IndexError /\
  arithmetic_arranger ext_class [lit "x"] false = Ret ERR_NON_DIGITS_PRESENT /\
  arithmetic_arranger ext_class [lit "1 + 2 3"] false =
    Ret (lit "  1" ++ NEW_LINE ++ lit "+ 2" ++ NEW_LINE ++ lit "---" ++ NEW_LINE).
Proof. repeat split; vm_compute; reflexivity. Qed.

(** C2.  An operand made of a numeric character that is not a decimal digit
    passes [isnumeric]; [int] then raises [ValueError] instead of the
    non-digit error being returned. *)
Theorem C2_numeric_non_decimal_raises :
  arithmetic_arranger ext_class [ONE_HALF :: lit " + 1"] false = Raise ValueError /\
  arithmetic_arranger ext_class [lit "1 - " ++ [SUPERSCRIPT_TWO]] false = Raise ValueError.
Proof. split; vm_compute; reflexivity. Qed.

(** C4.  With an operand that is numeric without being a decimal digit and
    an operator that is neither "+" nor "-", the operator error is reported:
    the non-digit check let the operand through. *)
Theorem C4_operator_error_with_non_digit_operand :
  arithmetic_arranger ext_class [ONE_HALF :: lit " / 1"] false = Ret ERR_INVALID_OPERATOR /\
  parse_equation ext_class (ONE_HALF :: lit " / 1") = Ret (VInt ERR_IO).
Proof. split; vm_compute; reflexivity. Qed.

(** C5, amended.  "8555" has four digits, which the length check allows:
    ["3 / 8555"] gets the operator error.  For one problem of three tokens
    or more whose operand tokens are in decimal digits, the length error is
    returned as soon as an operand is longer than four, whatever the
    operator (so for ["3 / 85555"]); the operator error is returned when
    neither is and the operator is neither "+" nor "-". *)
Theorem C5_four_digits_then_operator_error :
  arithmetic_arranger ext_class [lit "3 / 8555"] false = Ret ERR_INVALID_OPERATOR /\
  arithmetic_arranger ext_class [lit "3 / 85555"] false = Ret ERR_NUMBER_TOO_LONG /\
  (forall (s a op b : str) (rest : list str) (da db : list digits)
          (show_solutions : bool),
     split ext_class s = a :: op :: b :: rest ->
     decimal_digits ext_class a = Some da ->
     decimal_digits ext_class b = Some db ->
     4 < len a \/ 4 < len b ->
     arithmetic_arranger ext_class [s] show_solutions = Ret ERR_NUMBER_TOO_LONG) /\
  (forall (s a op b : str) (rest : list str) (da db : list digits)
          (show_solutions : bool),
     split ext_class s = a :: op :: b :: rest ->
     decimal_digits ext_class a = Some da ->
     decimal_digits ext_class b = Some db ->
     len a <= 4 -> len b <= 4 ->
     op <> lit "+" -> op <> lit "-" ->
     arithmetic_arranger ext_class [s] show_solutions = Ret ERR_INVALID_OPERATOR).
Proof.
  split; [vm_compute; reflexivity|]. split; [vm_compute; reflexivity|]. split.
  - intros s a op b rest da db show_solutions Hsplit Hda Hdb Hlong.
    destruct (parse_equation_decimal_operands ext_class _ _ _ _ _ _ _ Hsplit Hda Hdb)
      as [Hntl _].
    exact (single_problem_error ext_class s ERR_NTL show_solutions (Hntl Hlong)).
  - intros s a op b rest da db show_solutions Hsplit Hda Hdb Hla Hlb Hp Hm.
    destruct (parse_equation_decimal_operands ext_class _ _ _ _ _ _ _ Hsplit Hda Hdb)
      as [_ Hio].
    exact (single_problem_error ext_class s ERR_IO show_solutions (Hio Hla Hlb Hp Hm)).
Qed.

(** C8.  The two problems "3801 - 2" and "123 + 49", solutions off. *)
Theorem C8_example_two_problems :
  arithmetic_arranger ext_class [lit "3801 - 2"; lit "123 + 49"] false =
    Ret (lit "  3801      123" ++ NEW_LINE ++
         lit "-    2    +  49" ++ NEW_LINE ++
         lit "------    -----" ++ NEW_LINE).
Proof. vm_compute; reflexivity. Qed.

(** C10.  No problem at all: the empty string, with or without solutions. *)
Theorem C10_empty_input (show_solutions : bool) :
  arithmetic_arranger ext_class [] show_solutions = Ret [].
Proof. destruct show_solutions; reflexivity. Qed.

(** C3.  More than five problems: the error is returned before any of them
    is looked at. *)
Theorem C3_too_many_problems (problems : list str) (show_solutions : bool) :
  (5 < List.length problems)%nat ->
  arithmetic_arranger ext_class problems show_solutions = Ret ERR_TOO_MANY_PROBLEMS.
Proof.
  intros Hlen. unfold arithmetic_arranger.
  replace (len problems >? PROBLEM_LIMIT) with true; [reflexivity|].
  symmetry. unfold len, PROBLEM_LIMIT. apply Z.gtb_lt. lia.
Qed.

End Runs.

(** C3 at six strings none of which is a well-formed problem. *)
Lemma C3_too_many_problems_witness :
  (5 < List.length [lit ""; lit "x"; lit "1 +"; lit "1 / 2"; lit "12345 + 1"; lit "a b c d"])%nat /\
  arithmetic_arranger latin1_only
    [lit ""; lit "x"; lit "1 +"; lit "1 / 2"; lit "12345 + 1"; lit "a b c d"] true =
  Ret ERR_TOO_MANY_PROBLEMS.
Proof.
  split; [simpl; lia | apply C3_too_many_problems; simpl; lia].
Defined.

(** C5 as stated fails: the result on ["3 / 8555"] is the operator error,
    which is not the length error. *)
Lemma C5_counterexample :
  arithmetic_arranger latin1_only [lit "3 / 8555"] false = Ret ERR_INVALID_OPERATOR /\
  Ret ERR_INVALID_OPERATOR <> Ret ERR_NUMBER_TOO_LONG :> result str.
Proof. split; [vm_compute; reflexivity | discriminate]. Qed.

(** C5 at ["3 / 855555"]: an operand of six digits, and the length error. *)
Lemma C5_four_digits_then_operator_error_witness :
  arithmetic_arranger latin1_only [lit "3 / 855555"] true = Ret ERR_NUMBER_TOO_LONG.
Proof.
  destruct (C5_four_digits_then_operator_error latin1_only) as (_ & _ & Hlong & _).
  apply (Hlong (lit "3 / 855555") (lit "3") (lit "/") (lit "855555") []
               [d3] [d8; d5; d5; d5; d5; d5] true).
  - vm_compute. reflexivity.
  - vm_compute. reflexivity.
  - vm_compute. reflexivity.
  - right. vm_compute. reflexivity.
Defined.

(** C6 at "3801 - 2", whose operands are kept as they are. *)
Lemma C6_operands_canonical_witness :
  exists a op b : str,
    index (split latin1_only (lit "3801 - 2")) OP1_IDX = Ret a /\
    index (split latin1_only (lit "3801 - 2")) SIGN_IDX = Ret op /\
    index (split latin1_only (lit "3801 - 2")) OP2_IDX = Ret b /\
    lit "3801" = canonical (ascii_digits latin1_only a) /\
    lit "-" = op /\
    lit "2" = canonical (ascii_digits latin1_only b) /\
    (ascii_numeral a -> no_leading_zero a -> lit "3801" = a) /\
    (ascii_numeral b -> no_leading_zero b -> lit "2" = b).
Proof.
  apply (C6_operands_canonical latin1_only (lit "3801 - 2")
           (mkEquation (lit "3801") (lit "-") (lit "2") 3799)).
  vm_compute. reflexivity.
Defined.

(** C6 as stated fails: the first token of "007 + 1" is "007", and the
    operand kept is "7". *)
Lemma C6_counterexample :
  index (split latin1_only (lit "007 + 1")) OP1_IDX = Ret (lit "007") /\
  parse_equation latin1_only (lit "007 + 1") =
    Ret (VEquation (mkEquation (lit "7") (lit "+") (lit "1") 8)) /\
  lit "7" <> lit "007".
Proof.
  split; [vm_compute; reflexivity|]. split; [vm_compute; reflexivity|].
  discriminate.
Qed.

(** C9 at 1 and 9380, whose difference is below zero. *)
Lemma C9_evaluator_witness :
  calculate_solution 1 (lit "+") 9380 = 1 + 9380 /\
  calculate_solution 1 (lit "-") 9380 = 1 - 9380 /\
  (1 < 9380 ->
   forall eq : Equation,
     solution eq = calculate_solution 1 (lit "-") 9380 ->
     solution eq < 0 /\
     exists pad : nat,
       row_entry 4 eq = Some (repeat SPACE pad ++ DASH :: str_of_int (9380 - 1))).
Proof. apply (C9_evaluator 1 9380); lia. Defined.

(** C7 at ["3 + 855"; "988 + 40"], solutions on. *)
Lemma C7_block_structure_witness :
  arithmetic_arranger latin1_only [lit "3 + 855"; lit "988 + 40"] true =
  Ret (concat (map (row_text [mkEquation (lit "3") (lit "+") (lit "855") 858;
                               mkEquation (lit "988") (lit "+") (lit "40") 1028])
                   (rows true))).
Proof.
  apply (C7_block_structure latin1_only [lit "3 + 855"; lit "988 + 40"]
           [mkEquation (lit "3") (lit "+") (lit "855") 858;
            mkEquation (lit "988") (lit "+") (lit "40") 1028] true).
  - simpl. lia.
  - repeat constructor.
Defined.

(** The three checks at "3 / 85555": the length check is the one that fails. *)
Lemma parse_equation_three_tokens_witness :
  parse_equation latin1_only (lit "3 / 85555") =
    if negb (isnumeric latin1_only (lit "3")) || negb (isnumeric latin1_only (lit "85555"))
    then Ret (VInt ERR_NDP)
    else if (len (lit "3") >? DIGIT_LENGTH_LIMIT) || (len (lit "85555") >? DIGIT_LENGTH_LIMIT)
    then Ret (VInt ERR_NTL)
    else if negb (str_eqb (lit "/") (lit "+")) && negb (str_eqb (lit "/") (lit "-"))
    then Ret (VInt ERR_IO)
    else
      op1 <- int_of_str latin1_only (lit "3") ;;
      op2 <- int_of_str latin1_only (lit "85555") ;;
      Ret (VEquation (mkEquation (str_of_int op1) (lit "/") (str_of_int op2)
                                 (calculate_solution op1 (lit "/") op2))).
Proof.
  apply (parse_equation_three_tokens latin1_only (lit "3 / 85555")
           (lit "3") (lit "/") (lit "85555") []).
  vm_compute. reflexivity.
Defined.

(** * More of the program's behaviour *)

(** ** The loop over the problems *)

Section Batch.

Variable ext_class : char -> uclass.

(** Valid problems in front are parsed and kept; the loop goes on. *)
Lemma parse_loop_app (pre : list str) (equations : list Equation) :
  Forall2 (fun s eq => parse_equation ext_class s = Ret (VEquation eq))
          pre equations ->
  forall (problems : list str) (acc : list Equation),
    parse_loop ext_class (pre ++ problems) acc =
    parse_loop ext_class problems (acc ++ equations).
Proof.
  induction 1 as [|s eq pre equations Hs _ IH]; intros problems acc.
  - now rewrite List.app_nil_r.
  - cbn [app parse_loop]. rewrite Hs. cbn [bind]. rewrite IH.
    now rewrite <- app_assoc.
Qed.

(** When the loop runs to its end, every problem was valid. *)
Lemma parse_loop_Continue (problems : list str) :
  forall acc r : list Equation,
    parse_loop ext_class problems acc = Ret (Continue r) ->
    exists equations,
      r = acc ++ equations /\
      Forall2 (fun s eq => parse_equation ext_class s = Ret (VEquation eq))
              problems equations.
Proof.
  induction problems as [|s problems IH]; intros acc r H.
  - injection H as <-. exists []. split; [now rewrite List.app_nil_r | constructor].
  - cbn [parse_loop] in H.
    destruct (parse_equation ext_class s) as [[eq|n]|e] eqn:Hs; cbn [bind] in H;
      try discriminate.
    apply IH in H. destruct H as (equations & -> & Hall).
    exists (eq :: equations). split; [now rewrite <- app_assoc | now constructor].
Qed.

Lemma len_le_limit (problems : list str) :
  (List.length problems <= 5)%nat -> (len problems >? PROBLEM_LIMIT) = false.
Proof.
  intros H. rewrite Z.gtb_ltb. apply Z.ltb_ge. unfold len, PROBLEM_LIMIT. lia.
Qed.

(** The first problem that is not valid decides the result: the problems
    before it are parsed, those after it are never looked at, whether it
    yields an error code or raises. *)
Theorem arithmetic_arranger_first_failure (pre : list str) (equations : list Equation)
    (s : str) (rest : list str) (show_solutions : bool) :
  (List.length (pre ++ s :: rest) <= 5)%nat ->
  Forall2 (fun s eq => parse_equation ext_class s = Ret (VEquation eq))
          pre equations ->
  (forall n, parse_equation ext_class s = Ret (VInt n) ->
     arithmetic_arranger ext_class (pre ++ s :: rest) show_solutions =
     Ret (error_message n)) /\
  (forall e, parse_equation ext_class s = Raise e ->
     arithmetic_arranger ext_class (pre ++ s :: rest) show_solutions = Raise e).
Proof.
  intros Hlen Hpre. unfold arithmetic_arranger.
  rewrite (len_le_limit _ Hlen), (parse_loop_app _ _ Hpre).
  cbn [parse_loop app].
  split; intros x Hs; rewrite Hs; reflexivity.
Qed.

(** The flag changes the layout only.  For one to five valid problems the
    result without the flag is the rows 1 to 3, and the result with it is
    that same block followed by one more row, that of the right-justified
    solutions.  For no problem, for more than five, and for a list that
    holds a problem that is not valid, the two results are the same. *)
Theorem show_solutions_adds_one_row (problems : list str) :
  (forall equations : list Equation,
     (1 <= List.length problems <= 5)%nat ->
     Forall2 (fun s eq => parse_equation ext_class s = Ret (VEquation eq))
             problems equations ->
     arithmetic_arranger ext_class problems false =
       Ret (concat (map (row_text equations) [1; 2; 3])) /\
     arithmetic_arranger ext_class problems true =
       Ret (concat (map (row_text equations) [1; 2; 3]) ++ row_text equations 4) /\
     row_text equations 4 =
       join TAB (map (fun eq => rjust (str_of_int (solution eq))
                                      (get_longest_operand_len eq + 2) SPACE)
                     equations) ++ NEW_LINE) /\
  (problems = [] \/ (5 < List.length problems)%nat \/
   ~ (exists equations,
        Forall2 (fun s eq => parse_equation ext_class s = Ret (VEquation eq))
                problems equations) ->
   arithmetic_arranger ext_class problems true =
   arithmetic_arranger ext_class problems false).
Proof.
  split.
  - intros equations Hlen Hvalid.
    assert (Hne : equations <> []).
    { apply Forall2_length in Hvalid.
      destruct equations; [simpl in *; lia | discriminate]. }
    unfold arithmetic_arranger. rewrite len_le_limit by lia.
    rewrite (parse_loop_valid _ _ _ Hvalid). cbn [bind app].
    rewrite !format_equations_string_rows by exact Hne.
    split; [reflexivity|]. split; [|reflexivity].
    cbn [rows map concat]. now rewrite List.app_nil_r, <- !app_assoc.
  - intros Hcase. unfold arithmetic_arranger.
    destruct (len problems >? PROBLEM_LIMIT) eqn:Hlim; [reflexivity|].
    destruct (parse_loop ext_class problems []) as [[equations|v]|e] eqn:Hloop;
      cbn [bind]; try reflexivity.
    apply parse_loop_Continue in Hloop.
    destruct Hloop as (equations' & E & Hall). cbn [app] in E. subst equations'.
    destruct Hcase as [-> | [Hmany | Hnone]].
    + inversion Hall. reflexivity.
    + rewrite Z.gtb_ltb in Hlim. apply Z.ltb_ge in Hlim.
      unfold len, PROBLEM_LIMIT in Hlim. lia.
    + exfalso. apply Hnone. now exists equations.
Qed.

(** The generic message is out of reach, and no subscript of the layout is
    out of range: whatever the equations, well formed or not, the layout
    returns its rows (nothing at all for no equation). *)
Theorem format_equations_string_total (equations : list Equation)
    (show_solutions : bool) :
  format_equations_string equations show_solutions =
  Ret (match equations with
       | [] => []
       | _ :: _ => concat (map (row_text equations) (rows show_solutions))
       end).
Proof.
  destruct equations as [|eq equations].
  - now destruct show_solutions.
  - apply format_equations_string_rows. discriminate.
Qed.

(** The count of the problems is the only cause of the "too many" error. *)
Theorem too_many_problems_iff (problems : list str) (show_solutions : bool) :
  arithmetic_arranger ext_class problems show_solutions = Ret ERR_TOO_MANY_PROBLEMS <->
  (5 < List.length problems)%nat.
Proof.
  split.
  - intros H. destruct (Nat.lt_ge_cases 5 (List.length problems)) as [|Hle]; [assumption|].
    exfalso. unfold arithmetic_arranger in H. rewrite (len_le_limit _ Hle) in H.
    destruct (parse_loop ext_class problems []) as [[equations|v]|e] eqn:Hloop;
      cbn [bind] in H; [| |discriminate].
    + destruct equations as [|eq equations].
      * destruct show_solutions; discriminate.
      * destruct (format_equations_string_first eq equations show_solutions) as [r Hr].
        rewrite Hr in H. discriminate.
    + apply parse_loop_Return in Hloop. injection H as ->.
      destruct Hloop as [H|[H|H]]; discriminate.
  - intros H. unfold arithmetic_arranger.
    replace (len problems >? PROBLEM_LIMIT) with true; [reflexivity|].
    symmetry. apply Z.gtb_lt. unfold len, PROBLEM_LIMIT. lia.
Qed.

End Batch.

(** The first failure at ["1 + 2"; "3 * 4"; "x"]: the operator error of the
    second problem, the third not being looked at. *)
Lemma arithmetic_arranger_first_failure_witness :
  arithmetic_arranger latin1_only ([lit "1 + 2"] ++ lit "3 * 4" :: [lit "x"]) true =
  Ret ERR_INVALID_OPERATOR.
Proof.
  destruct (arithmetic_arranger_first_failure latin1_only [lit "1 + 2"]
              [mkEquation (lit "1") (lit "+") (lit "2") 3]
              (lit "3 * 4") [lit "x"] true) as [Hcode _].
  - simpl. lia.
  - repeat constructor.
  - apply (Hcode ERR_IO). vm_compute. reflexivity.
Defined.

(** The added row at ["3 + 855"; "988 + 40"]. *)
Lemma show_solutions_adds_one_row_witness :
  arithmetic_arranger latin1_only [lit "3 + 855"; lit "988 + 40"] true =
  Ret (concat (map (row_text [mkEquation (lit "3") (lit "+") (lit "855") 858;
                               mkEquation (lit "988") (lit "+") (lit "40") 1028])
                   [1; 2; 3])
       ++ row_text [mkEquation (lit "3") (lit "+") (lit "855") 858;
                    mkEquation (lit "988") (lit "+") (lit "40") 1028] 4).
Proof.
  destruct (show_solutions_adds_one_row latin1_only [lit "3 + 855"; lit "988 + 40"])
    as [Hvalid _].
  destruct (Hvalid [mkEquation (lit "3") (lit "+") (lit "855") 858;
                    mkEquation (lit "988") (lit "+") (lit "40") 1028])
    as (_ & Hshow & _).
  - simpl. lia.
  - repeat constructor.
  - exact Hshow.
Defined.

(** ** The equations that come out of the parser *)

Lemma In_strip_zeros (c : char) (s : str) : In c (strip_zeros s) -> In c s.
Proof.
  induction s as [|x s IH]; cbn [strip_zeros]; [tauto|].
  destruct (x =? 48)%N; [intros H; right; now apply IH | tauto].
Qed.

Lemma length_strip_zeros (s : str) :
  (List.length (strip_zeros s) <= List.length s)%nat.
Proof.
  induction s as [|x s IH]; cbn [strip_zeros]; [lia|].
  destruct (x =? 48)%N; cbn [List.length]; lia.
Qed.

Lemma strip_zeros_head (s : str) (c : char) (s' : str) :
  strip_zeros s = c :: s' -> c <> 48%N.
Proof.
  induction s as [|x s IH]; cbn [strip_zeros]; [discriminate|].
  destruct (x =? 48)%N eqn:Hx; [exact IH|].
  intros H. injection H as <- _. now apply N.eqb_neq.
Qed.

Lemma canonical_ascii_numeral (s : str) :
  ascii_numeral s -> ascii_numeral (canonical s).
Proof.
  intros Hs c. unfold canonical.
  destruct (strip_zeros s) as [|x r] eqn:E.
  - cbn. intros [<-|[]]. lia.
  - intros H. apply Hs, In_strip_zeros. now rewrite E.
Qed.

Lemma canonical_len (s : str) : 1 <= len (canonical s) <= Z.max 1 (len s).
Proof.
  pose proof (length_strip_zeros s) as H. unfold canonical, len.
  destruct (strip_zeros s) as [|x r]; cbn [List.length lit list_ascii_of_string map] in *; lia.
Qed.

Lemma canonical_no_leading (s : str) : no_leading_zero (canonical s).
Proof.
  unfold canonical. destruct (strip_zeros s) as [|x r] eqn:E; [now left|].
  right. exists x, r. split; [reflexivity|]. exact (strip_zeros_head _ _ _ E).
Qed.

Lemma digits_ascii_numeral (ds : list digits) : ascii_numeral (map digit_char ds).
Proof.
  intros c H. apply in_map_iff in H. destruct H as (d & <- & _).
  destruct d; cbn; lia.
Qed.

(** A numeral of [k] digits is below [10 ^ k]. *)
Lemma of_digits_bound (ds : list digits) :
  0 <= Z.of_uint (of_list ds) < 10 ^ len ds.
Proof.
  unfold Z.of_uint. change (Pos.of_uint (of_list ds)) with (N.of_uint (of_list ds)).
  split; [apply N2Z.is_nonneg|].
  pose proof (of_uint_lt (of_list ds)) as H.
  rewrite nb_digits_spec, to_list_of_list in H.
  apply N2Z.inj_lt in H. rewrite N2Z.inj_pow, nat_N_Z in H. exact H.
Qed.

Section Parsed.

Variable ext_class : char -> uclass.

Lemma decimal_digits_length (s : str) (ds : list digits) :
  decimal_digits ext_class s = Some ds -> List.length ds = List.length s.
Proof.
  revert ds. induction s as [|c s IH]; intros ds H.
  - now injection H as <-.
  - cbn [decimal_digits] in H.
    destruct (decimal_char ext_class c); [|discriminate].
    destruct (decimal_digits ext_class s) as [ds'|]; [|discriminate].
    injection H as <-. cbn [List.length]. f_equal. now apply IH.
Qed.

(** The operand tokens of a valid problem are at most four characters long. *)
Lemma parse_equation_lengths (s : str) (eq : Equation) (a b : str) :
  parse_equation ext_class s = Ret (VEquation eq) ->
  index (split ext_class s) OP1_IDX = Ret a ->
  index (split ext_class s) OP2_IDX = Ret b ->
  len a <= 4 /\ len b <= 4.
Proof.
  unfold parse_equation, por, pand. intros H Ha Hb.
  rewrite Ha, Hb in H. cbn [bind] in H.
  destruct (isnumeric ext_class a); cbn [negb bind] in H; [|discriminate].
  destruct (isnumeric ext_class b); cbn [negb bind] in H; [|discriminate].
  unfold DIGIT_LENGTH_LIMIT in H.
  destruct (len a >? 4) eqn:Hla; cbn [bind] in H; [discriminate|].
  destruct (len b >? 4) eqn:Hlb; cbn [bind] in H; [discriminate|].
  rewrite Z.gtb_ltb in Hla, Hlb. apply Z.ltb_ge in Hla, Hlb. lia.
Qed.

(** Every [Equation] the parser makes: the operator is "+" or "-"; each
    operand is the ASCII numeral, one to four digits long and without a
    leading zero, of an int from 0 to 9999; the solution is their sum or
    their difference, hence from -9999 to 19998. *)
Theorem parsed_equation_invariants (s : str) (eq : Equation) :
  parse_equation ext_class s = Ret (VEquation eq) ->
  (operator eq = lit "+" \/ operator eq = lit "-") /\
  (ascii_numeral (operand1 eq) /\ no_leading_zero (operand1 eq) /\
   1 <= len (operand1 eq) <= 4) /\
  (ascii_numeral (operand2 eq) /\ no_leading_zero (operand2 eq) /\
   1 <= len (operand2 eq) <= 4) /\
  (exists op1 op2 : Z,
     0 <= op1 <= 9999 /\ 0 <= op2 <= 9999 /\
     operand1 eq = str_of_int op1 /\ operand2 eq = str_of_int op2 /\
     (operator eq = lit "+" -> solution eq = op1 + op2) /\
     (operator eq = lit "-" -> solution eq = op1 - op2)) /\
  -9999 <= solution eq <= 19998.
Proof.
  intros H. pose proof (parse_equation_Equation _ _ _ H) as Hinv.
  destruct Hinv as (a & op & b & da & db & Ha & _ & Hb & Hsign & Hda & Hdb & ->).
  destruct (parse_equation_lengths _ _ _ _ H Ha Hb) as [Hla Hlb].
  apply decimal_digits_length in Hda, Hdb.
  assert (La : len da <= 4) by (unfold len in *; lia).
  assert (Lb : len db <= 4) by (unfold len in *; lia).
  pose proof (of_digits_bound da) as [Na Ua].
  pose proof (of_digits_bound db) as [Nb Ub].
  assert (Ua' : Z.of_uint (of_list da) <= 9999).
  { assert (10 ^ len da <= 10 ^ 4) by (apply Z.pow_le_mono_r; [lia | assumption]).
    change (10 ^ 4) with 10000 in *. lia. }
  assert (Ub' : Z.of_uint (of_list db) <= 9999).
  { assert (10 ^ len db <= 10 ^ 4) by (apply Z.pow_le_mono_r; [lia | assumption]).
    change (10 ^ 4) with 10000 in *. lia. }
  cbn [operand1 operand2 operator solution].
  assert (Hop : forall ds, len ds <= 4 ->
            ascii_numeral (str_of_int (Z.of_uint (of_list ds))) /\
            no_leading_zero (str_of_int (Z.of_uint (of_list ds))) /\
            1 <= len (str_of_int (Z.of_uint (of_list ds))) <= 4).
  { intros ds Hds. rewrite str_of_int_of_digits.
    split; [apply canonical_ascii_numeral, digits_ascii_numeral|].
    split; [apply canonical_no_leading|].
    pose proof (canonical_len (map digit_char ds)) as Hc.
    unfold len in *. rewrite length_map in Hc. lia. }
  split; [exact Hsign|]. split; [now apply Hop|]. split; [now apply Hop|].
  split.
  - exists (Z.of_uint (of_list da)), (Z.of_uint (of_list db)).
    repeat split; try lia; intros ->; reflexivity.
  - destruct Hsign as [-> | ->];
      [change (calculate_solution ?x (lit "+") ?y) with (x + y)
      |change (calculate_solution ?x (lit "-") ?y) with (x - y)]; lia.
Qed.

End Parsed.

(** The invariants at "0999 - 9999", whose first operand is kept as "999". *)
Lemma parsed_equation_invariants_witness :
  -9999 <= solution (mkEquation (lit "999") (lit "-") (lit "9999") (-9000)) <= 19998.
Proof.
  apply (parsed_equation_invariants latin1_only (lit "0999 - 9999")
           (mkEquation (lit "999") (lit "-") (lit "9999") (-9000))).
  vm_compute. reflexivity.
Defined.

(** ** The shape of the block *)

Lemma len_cons {A : Type} (a : A) (l : list A) : len (a :: l) = 1 + len l.
Proof. unfold len. cbn [List.length]. lia. Qed.

Lemma len_join (sep : str) (entries : list str) :
  entries <> [] ->
  len (join sep entries) =
  fold_right Z.add 0 (map len entries) + len sep * (len entries - 1).
Proof.
  induction entries as [|e entries IH]; intros Hne; [congruence|].
  destruct entries as [|e' entries'].
  - cbn [join map fold_right]. rewrite len_cons. change (len (@nil str)) with 0. lia.
  - change (join sep (e :: e' :: entries'))
      with (e ++ sep ++ join sep (e' :: entries')).
    rewrite !len_app, IH by discriminate.
    rewrite (len_cons e). cbn [map fold_right]. lia.
Qed.

Lemma len_row_text (equations : list Equation) (current_line : Z) :
  equations <> [] ->
  Forall well_formed equations ->
  In current_line [1; 2; 3; 4] ->
  len (row_text equations current_line) =
  fold_right Z.add 0 (map column_width equations) + 4 * (len equations - 1) + 1.
Proof.
  intros Hne Hwf Hrow. unfold row_text. rewrite len_app, len_join.
  - rewrite map_map. unfold len at 2 3. rewrite length_map.
    change (Z.of_nat (List.length TAB)) with 4.
    change (Z.of_nat (List.length NEW_LINE)) with 1.
    f_equal. f_equal. f_equal. apply map_ext_in. intros eq Heq.
    apply entry_width; [|exact Hrow]. rewrite Forall_forall in Hwf. now apply Hwf.
  - destruct equations; [congruence | discriminate].
Qed.

Lemma len_concat_const (w : Z) (l : list str) :
  Forall (fun s => len s = w) l -> len (concat l) = len l * w.
Proof.
  induction 1 as [|s l Hs _ IH]; [reflexivity|].
  cbn [concat]. rewrite len_app, IH, Hs, len_cons. lia.
Qed.

Section Shape.

Variable ext_class : char -> uclass.

(** The block is a rectangle: every row, the newline counted, is as long as
    the columns and the separators between them, and the block has three or
    four such rows. *)
Theorem block_is_rectangular (problems : list str) (equations : list Equation)
    (show_solutions : bool) :
  (1 <= List.length problems <= 5)%nat ->
  Forall2 (fun s eq => parse_equation ext_class s = Ret (VEquation eq))
          problems equations ->
  exists block : str,
    arithmetic_arranger ext_class problems show_solutions = Ret block /\
    block = concat (map (row_text equations) (rows show_solutions)) /\
    (forall current_line, In current_line (rows show_solutions) ->
       len (row_text equations current_line) =
       fold_right Z.add 0 (map column_width equations)
       + 4 * (len equations - 1) + 1) /\
    len block =
      (if show_solutions then 4 else 3)
      * (fold_right Z.add 0 (map column_width equations)
         + 4 * (len equations - 1) + 1).
Proof.
  intros Hlen Hvalid.
  assert (Hne : equations <> []).
  { apply Forall2_length in Hvalid. destruct equations; [simpl in *; lia | discriminate]. }
  assert (Hwf : Forall well_formed equations).
  { apply Forall_forall. intros eq Heq.
    destruct (Forall2_In_right _ _ _ Hvalid eq Heq) as (s & _ & Hs).
    now apply parse_equation_well_formed in Hs. }
  assert (Hrows : forall current_line, In current_line (rows show_solutions) ->
            len (row_text equations current_line) =
            fold_right Z.add 0 (map column_width equations)
            + 4 * (len equations - 1) + 1).
  { intros current_line Hrow. apply len_row_text; auto. now apply rows_valid in Hrow. }
  eexists. split; [|split; [reflexivity|split; [exact Hrows|]]].
  - unfold arithmetic_arranger.
    rewrite len_le_limit by lia.
    rewrite (parse_loop_valid _ _ _ Hvalid). cbn [bind app].
    now apply format_equations_string_rows.
  - rewrite (len_concat_const
               (fold_right Z.add 0 (map column_width equations)
                + 4 * (len equations - 1) + 1)).
    + unfold len at 1. rewrite length_map. now destruct show_solutions.
    + apply Forall_forall. intros r Hr. apply in_map_iff in Hr.
      destruct Hr as (current_line & <- & Hrow). now apply Hrows.
Qed.

(** Every column is right-aligned.  Each of its four entries is as wide
    as the column, the longer operand plus two: the first operand after its
    padding of spaces, two at least; the operator, a space, the padding of
    the second operand and that operand; dashes all along; the solution
    after its padding, one space at least.  The longer operand gets the
    least padding there is: two spaces on row 1, or none after the space
    that follows the operator on row 2. *)
Theorem column_is_right_aligned (s : str) (eq : Equation) :
  parse_equation ext_class s = Ret (VEquation eq) ->
  exists p1 p2 p4 : nat,
    entry 1 eq = repeat SPACE p1 ++ operand1 eq /\
    entry 2 eq = operator eq ++ SPACE :: repeat SPACE p2 ++ operand2 eq /\
    entry 3 eq = repeat DASH (Z.to_nat (column_width eq)) /\
    entry 4 eq = repeat SPACE p4 ++ str_of_int (solution eq) /\
    column_width eq = Z.max (len (operand1 eq)) (len (operand2 eq)) + 2 /\
    len (operator eq) = 1 /\
    Z.of_nat p1 + len (operand1 eq) = column_width eq /\
    2 + Z.of_nat p2 + len (operand2 eq) = column_width eq /\
    Z.of_nat p4 + len (str_of_int (solution eq)) = column_width eq /\
    (2 <= p1)%nat /\ (1 <= p4)%nat /\
    (len (operand2 eq) <= len (operand1 eq) -> p1 = 2%nat) /\
    (len (operand1 eq) <= len (operand2 eq) -> p2 = 0%nat).
Proof.
  intros H. apply parse_equation_well_formed in H.
  pose proof (len_solution eq H) as Hsol.
  destruct H as (Hsign & _).
  unfold get_longest_operand_len in Hsol.
  pose proof (len_nonneg (operand1 eq)) as P1.
  pose proof (len_nonneg (operand2 eq)) as P2.
  pose proof (len_nonneg (str_of_int (solution eq))) as P4.
  exists (Z.to_nat (Z.max (len (operand1 eq)) (len (operand2 eq)) + 2
                    - len (operand1 eq))),
         (Z.to_nat (Z.max (len (operand1 eq)) (len (operand2 eq))
                    - len (operand2 eq))),
         (Z.to_nat (Z.max (len (operand1 eq)) (len (operand2 eq)) + 2
                    - len (str_of_int (solution eq)))).
  split; [reflexivity|]. split; [reflexivity|]. split.
  { change (entry 3 eq) with (rjust [] (get_longest_operand_len eq + 2) DASH).
    unfold rjust, column_width, get_longest_operand_len.
    rewrite List.app_nil_r. f_equal. change (len (@nil char)) with 0. lia. }
  split; [reflexivity|]. split; [reflexivity|]. split.
  { destruct Hsign as [-> | ->]; reflexivity. }
  unfold column_width. repeat split; lia.
Qed.

End Shape.

(** The rectangle at ["32 - 698"; "1 - 3801"], solutions on: four rows of
    5 + 4 + 6 + 1 characters. *)
Lemma block_is_rectangular_witness :
  exists block : str,
    arithmetic_arranger latin1_only [lit "32 - 698"; lit "1 - 3801"] true = Ret block /\
    len block = 4 * 16.
Proof.
  destruct (block_is_rectangular latin1_only [lit "32 - 698"; lit "1 - 3801"]
              [mkEquation (lit "32") (lit "-") (lit "698") (-666);
               mkEquation (lit "1") (lit "-") (lit "3801") (-3800)] true)
    as (block & Hrun & _ & _ & Hlen).
  - simpl. lia.
  - repeat constructor.
  - exists block. split; [exact Hrun | exact Hlen].
Defined.

(** The alignment at "3801 - 2": the first operand is the longer one. *)
Lemma column_is_right_aligned_witness :
  exists p1 p2 p4 : nat,
    entry 1 (mkEquation (lit "3801") (lit "-") (lit "2") 3799) =
      repeat SPACE p1 ++ lit "3801" /\
    entry 2 (mkEquation (lit "3801") (lit "-") (lit "2") 3799) =
      lit "-" ++ SPACE :: repeat SPACE p2 ++ lit "2" /\
    entry 4 (mkEquation (lit "3801") (lit "-") (lit "2") 3799) =
      repeat SPACE p4 ++ lit "3799" /\
    p1 = 2%nat /\ p2 = 3%nat /\ p4 = 2%nat.
Proof.
  destruct (column_is_right_aligned latin1_only (lit "3801 - 2")
              (mkEquation (lit "3801") (lit "-") (lit "2") 3799))
    as (p1 & p2 & p4 & E1 & E2 & _ & E4 & _ & _ & W1 & W2 & W4 & _).
  - vm_compute. reflexivity.
  - exists p1, p2, p4.
    split; [exact E1|]. split; [exact E2|]. split; [exact E4|].
    assert (W1' : Z.of_nat p1 + 4 = 6) by exact W1.
    assert (W2' : 2 + Z.of_nat p2 + 1 = 6) by exact W2.
    assert (W4' : Z.of_nat p4 + 4 = 6) by exact W4.
    lia.
Defined.

(** ** When the parser raises *)

Section Exceptions.

Variable ext_class : char -> uclass.

Lemma index_three {A : Type} (a op b : A) (rest : list A) :
  index (a :: op :: b :: rest) OP1_IDX = Ret a /\
  index (a :: op :: b :: rest) SIGN_IDX = Ret op /\
  index (a :: op :: b :: rest) OP2_IDX = Ret b.
Proof.
  split; [exact (index_middle [] a (op :: b :: rest))|].
  split; [exact (index_middle [a] op (b :: rest))|].
  exact (index_middle [a; op] b rest).
Qed.

Lemma int_of_str_Raise (t : str) (e : exn) :
  isnumeric ext_class t = true ->
  (int_of_str ext_class t = Raise e <->
   e = ValueError /\ decimal_digits ext_class t = None).
Proof.
  intros Hnum. unfold int_of_str.
  destruct t as [|c t]; [discriminate|].
  destruct (decimal_digits ext_class (c :: t)) as [ds|]; split.
  - discriminate.
  - intros [_ H]. discriminate.
  - intros H. injection H as <-. auto.
  - intros [-> _]. reflexivity.
Qed.

Lemma sign_test (op : str) :
  negb (str_eqb op (lit "+")) && negb (str_eqb op (lit "-")) = false <->
  op = lit "+" \/ op = lit "-".
Proof.
  destruct (str_eqb op (lit "+")) eqn:Hp; destruct (str_eqb op (lit "-")) eqn:Hm;
    cbn [negb andb]; split; intros H; try reflexivity; try discriminate.
  - left. now apply str_eqb_eq.
  - left. now apply str_eqb_eq.
  - right. now apply str_eqb_eq.
  - destruct H as [H|H]; apply str_eqb_eq in H; congruence.
Qed.

(** A problem that passes the three checks goes on to [int]. *)
Lemma parse_equation_passed (s a op b : str) (rest : list str) :
  split ext_class s = a :: op :: b :: rest ->
  isnumeric ext_class a = true -> isnumeric ext_class b = true ->
  len a <= 4 -> len b <= 4 ->
  op = lit "+" \/ op = lit "-" ->
  parse_equation ext_class s =
    (op1 <- int_of_str ext_class a ;;
     op2 <- int_of_str ext_class b ;;
     Ret (VEquation (mkEquation (str_of_int op1) op (str_of_int op2)
                                (calculate_solution op1 op op2)))).
Proof.
  intros Hsplit Ha Hb Hla Hlb Hsign. unfold parse_equation. rewrite Hsplit.
  destruct (index_three a op b rest) as (-> & -> & ->).
  unfold por, pand, DIGIT_LENGTH_LIMIT. cbn [bind]. rewrite Ha, Hb. cbn [negb bind].
  replace (len a >? 4) with false by (symmetry; rewrite Z.gtb_ltb; apply Z.ltb_ge; lia).
  replace (len b >? 4) with false by (symmetry; rewrite Z.gtb_ltb; apply Z.ltb_ge; lia).
  cbn [bind].
  destruct Hsign as [-> | ->]; cbn [bind];
    destruct (int_of_str ext_class a); reflexivity.
Qed.

(** With three tokens or more, the only exception is the [ValueError] of
    [int], on an operand that passed every check without being a decimal
    numeral. *)
Lemma parse_equation_Raise_three (s a op b : str) (rest : list str) (e : exn) :
  split ext_class s = a :: op :: b :: rest ->
  (parse_equation ext_class s = Raise e <->
   e = ValueError /\
   isnumeric ext_class a = true /\ isnumeric ext_class b = true /\
   len a <= 4 /\ len b <= 4 /\
   (op = lit "+" \/ op = lit "-") /\
   (decimal_digits ext_class a = None \/ decimal_digits ext_class b = None)).
Proof.
  intros Hsplit. split.
  - intros H. unfold parse_equation in H. rewrite Hsplit in H.
    destruct (index_three a op b rest) as (E0 & E1 & E2).
    rewrite E0, E1, E2 in H.
    unfold por, pand, DIGIT_LENGTH_LIMIT in H. cbn [bind] in H.
    destruct (isnumeric ext_class a) eqn:Ha; cbn [negb bind] in H; [|discriminate].
    destruct (isnumeric ext_class b) eqn:Hb; cbn [negb bind] in H; [|discriminate].
    destruct (len a >? 4) eqn:Hla; cbn [bind] in H; [discriminate|].
    destruct (len b >? 4) eqn:Hlb; cbn [bind] in H; [discriminate|].
    rewrite Z.gtb_ltb in Hla, Hlb. apply Z.ltb_ge in Hla, Hlb.
    assert (Hsign : op = lit "+" \/ op = lit "-").
    { apply sign_test.
      destruct (str_eqb op (lit "+")); [reflexivity|].
      destruct (str_eqb op (lit "-")); [reflexivity|].
      cbn [negb bind] in H. discriminate. }
    assert (Hrest :
      (op1 <- int_of_str ext_class a ;;
       op2 <- int_of_str ext_class b ;;
       Ret (VEquation (mkEquation (str_of_int op1) op (str_of_int op2)
                                  (calculate_solution op1 op op2)))) = Raise e).
    { destruct (str_eqb op (lit "+")); cbn [negb bind] in H; [exact H|].
      destruct (str_eqb op (lit "-")); cbn [negb bind] in H; [exact H|discriminate]. }
    clear H.
    destruct (int_of_str ext_class a) as [op1|ea] eqn:Ea; cbn [bind] in Hrest.
    + destruct (int_of_str ext_class b) as [op2|eb] eqn:Eb; cbn [bind] in Hrest;
        [discriminate|].
      injection Hrest as ->. apply int_of_str_Raise in Eb; [|exact Hb].
      destruct Eb as [-> Hd]. auto 10.
    + injection Hrest as ->. apply int_of_str_Raise in Ea; [|exact Ha].
      destruct Ea as [-> Hd]. auto 10.
  - intros (-> & Ha & Hb & Hla & Hlb & Hsign & Hd).
    rewrite (parse_equation_passed _ _ _ _ _ Hsplit Ha Hb Hla Hlb Hsign).
    destruct (int_of_str ext_class a) as [op1|ea] eqn:Ea; cbn [bind].
    + destruct Hd as [Hd|Hd].
      * pose proof (proj2 (int_of_str_Raise a ValueError Ha) (conj eq_refl Hd)).
        congruence.
      * now rewrite (proj2 (int_of_str_Raise b ValueError Hb) (conj eq_refl Hd)).
    + apply int_of_str_Raise in Ea; [|exact Ha]. now destruct Ea as [-> _].
Qed.

(** With fewer than three tokens the parser does not reach its length and
    operator checks: it reports a first token that is not numeric, and
    otherwise fails on a subscript. *)
Lemma parse_equation_few_tokens (s : str) :
  (List.length (split ext_class s) < 3)%nat ->
  parse_equation ext_class s =
  match split ext_class s with
  | [] => Raise IndexError
  | a :: _ => if isnumeric ext_class a then Raise IndexError else Ret (VInt ERR_NDP)
  end.
Proof.
  intros Hlen. unfold parse_equation.
  destruct (split ext_class s) as [|a [|op [|b rest]]];
    [reflexivity | | | cbn [List.length] in Hlen; lia];
    unfold por; cbn; destruct (isnumeric ext_class a); reflexivity.
Qed.

(** When [parse_equation] raises, and what: [IndexError] for no token, or
    for one or two tokens the first of which is numeric; [ValueError] for
    three tokens or more that pass the three checks, an operand of which
    holds a numeric character that is not a decimal digit. *)
Theorem parse_equation_raises (s : str) (e : exn) :
  parse_equation ext_class s = Raise e <->
  (e = IndexError /\
   (split ext_class s = [] \/
    exists a more, split ext_class s = a :: more /\
                   isnumeric ext_class a = true /\ (List.length more < 2)%nat)) \/
  (e = ValueError /\
   exists a op b rest,
     split ext_class s = a :: op :: b :: rest /\
     isnumeric ext_class a = true /\ isnumeric ext_class b = true /\
     len a <= 4 /\ len b <= 4 /\
     (op = lit "+" \/ op = lit "-") /\
     (decimal_digits ext_class a = None \/ decimal_digits ext_class b = None)).
Proof.
  destruct (split ext_class s) as [|a more] eqn:Hsplit.
  - rewrite parse_equation_few_tokens by (rewrite Hsplit; cbn; lia). rewrite Hsplit.
    split.
    + intros H. injection H as <-. left. auto.
    + intros [[-> _] | (_ & a & op & b & rest & H & _)]; [reflexivity | discriminate].
  - destruct (Nat.lt_ge_cases (List.length more) 2) as [Hshort|Hlong].
    + rewrite parse_equation_few_tokens by (rewrite Hsplit; cbn [List.length]; lia).
      rewrite Hsplit. split.
      * destruct (isnumeric ext_class a) eqn:Ha; [|discriminate].
        intros H. injection H as <-. left. split; [reflexivity|]. right.
        exists a, more. auto.
      * intros [(-> & [H | (a' & more' & H & Ha & _)])
               | (_ & a' & op & b & rest & H & _)].
        -- discriminate.
        -- injection H as <- <-. now rewrite Ha.
        -- injection H as <- ->. cbn [List.length] in Hshort. lia.
    + destruct more as [|op [|b rest]]; try (cbn [List.length] in Hlong; lia).
      rewrite (parse_equation_Raise_three _ _ _ _ _ e Hsplit). split.
      * intros (-> & H). right. split; [reflexivity|]. exists a, op, b, rest. auto.
      * intros [(_ & [H | (a' & more' & H & _ & Hl)])
               | (-> & a' & op' & b' & rest' & H & Hrest)].
        -- discriminate.
        -- injection H as <- <-. cbn [List.length] in Hl. lia.
        -- injection H as <- <- <- <-. auto.
Qed.

End Exceptions.

(** ** Problems that are accepted *)

Section Accepted.

Variable ext_class : char -> uclass.

(** Characters that are not whitespace extend the word being read. *)
Lemma split_from_word (t : str) :
  Forall (fun c => isspace_char ext_class c = false) t ->
  forall (word rest : str),
    split_from ext_class word (t ++ rest) = split_from ext_class (word ++ t) rest.
Proof.
  induction 1 as [|c t Hc _ IH]; intros word rest.
  - now rewrite List.app_nil_r.
  - cbn [app split_from]. rewrite Hc, IH, <- app_assoc. reflexivity.
Qed.

(** Whitespace before the first word is skipped. *)
Lemma split_from_gap_nil (ws : str) :
  Forall (fun c => isspace_char ext_class c = true) ws ->
  forall rest : str,
    split_from ext_class [] (ws ++ rest) = split_from ext_class [] rest.
Proof.
  induction 1 as [|c ws Hc _ IH]; intros rest; [reflexivity|].
  cbn [app split_from]. rewrite Hc. apply IH.
Qed.

(** Whitespace after a word ends it. *)
Lemma split_from_gap (ws : str) (word : str) :
  Forall (fun c => isspace_char ext_class c = true) ws ->
  ws <> [] -> word <> [] ->
  forall rest : str,
    split_from ext_class word (ws ++ rest) = word :: split_from ext_class [] rest.
Proof.
  intros Hws Hne Hword rest.
  destruct Hws as [|c ws Hc Hws]; [congruence|].
  cbn [app split_from]. rewrite Hc.
  destruct word; [congruence|]. f_equal. now apply split_from_gap_nil.
Qed.

(** Three words, whitespace between them and maybe around them. *)
Lemma split_three_words (a op b w0 w1 w2 w3 : str) :
  Forall (fun c => isspace_char ext_class c = false) a -> a <> [] ->
  Forall (fun c => isspace_char ext_class c = false) op -> op <> [] ->
  Forall (fun c => isspace_char ext_class c = false) b -> b <> [] ->
  Forall (fun c => isspace_char ext_class c = true) w0 ->
  Forall (fun c => isspace_char ext_class c = true) w1 -> w1 <> [] ->
  Forall (fun c => isspace_char ext_class c = true) w2 -> w2 <> [] ->
  Forall (fun c => isspace_char ext_class c = true) w3 ->
  split ext_class (w0 ++ a ++ w1 ++ op ++ w2 ++ b ++ w3) = [a; op; b].
Proof.
  intros Ha Na Hop Nop Hb Nb H0 H1 N1 H2 N2 H3. unfold split.
  rewrite split_from_gap_nil, split_from_word by assumption. cbn [app].
  rewrite split_from_gap, split_from_word by assumption. cbn [app].
  rewrite split_from_gap, split_from_word by assumption. cbn [app].
  destruct w3 as [|c w3].
  - cbn [split_from]. now destruct b.
  - rewrite <- (List.app_nil_r (c :: w3)).
    rewrite split_from_gap by (assumption || discriminate). reflexivity.
Qed.

Lemma digits_no_space (ds : list digits) :
  Forall (fun c => isspace_char ext_class c = false) (map digit_char ds).
Proof.
  apply Forall_forall. intros c H. apply in_map_iff in H.
  destruct H as (d & <- & _). now destruct d.
Qed.

Lemma digits_isnumeric (ds : list digits) :
  ds <> [] -> isnumeric ext_class (map digit_char ds) = true.
Proof.
  intros Hne. destruct ds as [|d ds]; [congruence|].
  unfold isnumeric. cbn [map]. apply forallb_forall. intros c H.
  change (digit_char d :: map digit_char ds) with (map digit_char (d :: ds)) in H.
  apply in_map_iff in H. destruct H as (d' & <- & _). now destruct d'.
Qed.

Lemma digits_decimal_digits (ds : list digits) :
  decimal_digits ext_class (map digit_char ds) = Some ds.
Proof.
  induction ds as [|d ds IH]; [reflexivity|].
  cbn [map decimal_digits]. now rewrite decimal_char_digit_char, IH.
Qed.

Lemma digits_int_of_str (ds : list digits) :
  ds <> [] ->
  int_of_str ext_class (map digit_char ds) = Ret (Z.of_uint (of_list ds)).
Proof.
  intros Hne. pose proof (digits_decimal_digits ds) as H.
  destruct ds as [|d ds]; [congruence|].
  unfold int_of_str. cbn [map] in H |- *. now rewrite H.
Qed.

(** Three tokens that are two ASCII numerals of one to four digits around
    "+" or "-" make an [Equation]. *)
Lemma parse_equation_digits (s op : str) (da db : list digits) (rest : list str) :
  split ext_class s = map digit_char da :: op :: map digit_char db :: rest ->
  da <> [] -> db <> [] ->
  (List.length da <= 4)%nat -> (List.length db <= 4)%nat ->
  op = lit "+" \/ op = lit "-" ->
  parse_equation ext_class s =
  Ret (VEquation
         (mkEquation (str_of_int (Z.of_uint (of_list da))) op
                     (str_of_int (Z.of_uint (of_list db)))
                     (calculate_solution (Z.of_uint (of_list da)) op
                                         (Z.of_uint (of_list db))))).
Proof.
  intros Hsplit Na Nb La Lb Hsign.
  rewrite (parse_equation_passed _ _ _ _ _ _ Hsplit);
    try (now apply digits_isnumeric); try exact Hsign;
    try (unfold len; rewrite length_map; lia).
  now rewrite !digits_int_of_str.
Qed.

(** Every problem written as an ASCII numeral of one to four digits, "+" or
    "-", and another such numeral, with whitespace between them and maybe
    around them, is accepted: the parser neither reports an error nor
    raises, and the solution is the sum or the difference of the two
    numbers. *)
Theorem well_written_problem_accepted (da db : list digits) (op w0 w1 w2 w3 : str) :
  da <> [] -> db <> [] ->
  (List.length da <= 4)%nat -> (List.length db <= 4)%nat ->
  op = lit "+" \/ op = lit "-" ->
  Forall (fun c => isspace_char ext_class c = true) w0 ->
  Forall (fun c => isspace_char ext_class c = true) w1 -> w1 <> [] ->
  Forall (fun c => isspace_char ext_class c = true) w2 -> w2 <> [] ->
  Forall (fun c => isspace_char ext_class c = true) w3 ->
  parse_equation ext_class
    (w0 ++ map digit_char da ++ w1 ++ op ++ w2 ++ map digit_char db ++ w3) =
  Ret (VEquation
         (mkEquation (str_of_int (Z.of_uint (of_list da))) op
                     (str_of_int (Z.of_uint (of_list db)))
                     (if str_eqb op (lit "+")
                      then Z.of_uint (of_list da) + Z.of_uint (of_list db)
                      else Z.of_uint (of_list da) - Z.of_uint (of_list db)))).
Proof.
  intros Na Nb La Lb Hsign H0 H1 N1 H2 N2 H3.
  apply (parse_equation_digits _ op da db []); auto.
  apply split_three_words; auto using digits_no_space.
  - destruct da; [congruence | discriminate].
  - destruct Hsign as [-> | ->]; repeat constructor.
  - destruct Hsign as [-> | ->]; discriminate.
  - destruct db; [congruence | discriminate].
Qed.

End Accepted.

(** ** Parsing what was kept *)

(** [str(n)] for the value [n] of a numeral is a numeral of the same value,
    not longer than the first (one digit at least). *)
Lemma str_of_int_renumeral (ds : list digits) :
  exists ds' : list digits,
    str_of_int (Z.of_uint (of_list ds)) = map digit_char ds' /\
    ds' <> [] /\
    (List.length ds' <= Nat.max 1 (List.length ds))%nat /\
    Z.of_uint (of_list ds') = Z.of_uint (of_list ds).
Proof.
  exists (lunorm ds).
  assert (Hu : of_list (lunorm ds) = Decimal.unorm (of_list ds)).
  { apply to_list_inj. now rewrite unorm_spec, !to_list_of_list. }
  assert (Hs : str_of_int (Z.of_uint (of_list ds)) = map digit_char (lunorm ds)).
  { unfold Z.of_uint.
    change (Pos.of_uint (of_list ds)) with (N.of_uint (of_list ds)).
    rewrite str_of_int_of_N, DecimalN.Unsigned.to_of.
    unfold uint_str. now rewrite unorm_spec, to_list_of_list. }
  split; [exact Hs|]. split; [|split].
  - intros E. apply (f_equal of_list) in E. rewrite Hu in E.
    now apply unorm_nonnil in E.
  - pose proof (canonical_len (map digit_char ds)) as Hc.
    rewrite <- str_of_int_of_digits, Hs in Hc.
    unfold len in Hc. rewrite !length_map in Hc. lia.
  - unfold Z.of_uint. f_equal. rewrite Hu.
    exact (DecimalN.Unsigned.of_uint_norm (of_list ds)).
Qed.

Section Reparse.

Variable ext_class : char -> uclass.

(** Round trip: the operands and the operator kept in an [Equation], written
    with one space between them, parse to that very [Equation]. *)
Theorem parse_equation_reparse (s : str) (eq : Equation) :
  parse_equation ext_class s = Ret (VEquation eq) ->
  parse_equation ext_class
    (operand1 eq ++ lit " " ++ operator eq ++ lit " " ++ operand2 eq) =
  Ret (VEquation eq).
Proof.
  intros H. pose proof (parse_equation_Equation _ _ _ H) as Hinv.
  destruct Hinv as (a & op & b & da & db & Ha & _ & Hb & Hsign & Hda & Hdb & ->).
  destruct (parse_equation_lengths _ _ _ _ _ H Ha Hb) as [Hla Hlb].
  apply decimal_digits_length in Hda, Hdb.
  destruct (str_of_int_renumeral da) as (da' & Sa & Na & La & Va).
  destruct (str_of_int_renumeral db) as (db' & Sb & Nb & Lb & Vb).
  cbn [operand1 operand2 operator]. rewrite Sa, Sb, <- Va, <- Vb.
  unfold len in Hla, Hlb.
  rewrite (parse_equation_digits ext_class _ op da' db' []);
    try assumption; try lia.
  - now rewrite <- Sa, <- Sb, Va, Vb.
  - pose proof (split_three_words ext_class (map digit_char da') op
                  (map digit_char db') [] (lit " ") (lit " ") []) as Hsp.
    cbn [app] in Hsp. rewrite List.app_nil_r in Hsp. apply Hsp;
      auto using digits_no_space; try discriminate; try (repeat constructor).
    + destruct da'; [congruence | discriminate].
    + destruct Hsign as [-> | ->]; repeat constructor.
    + destruct Hsign as [-> | ->]; discriminate.
    + destruct db'; [congruence | discriminate].
Qed.

End Reparse.

(** The round trip at "007 + 1", kept as "7 + 1". *)
Lemma parse_equation_reparse_witness :
  parse_equation latin1_only (lit "7" ++ lit " " ++ lit "+" ++ lit " " ++ lit "1") =
  Ret (VEquation (mkEquation (lit "7") (lit "+") (lit "1") 8)).
Proof.
  apply (parse_equation_reparse latin1_only (lit "007 + 1")
           (mkEquation (lit "7") (lit "+") (lit "1") 8)).
  vm_compute. reflexivity.
Defined.

(** An accepted problem with a tab and a newline in it. *)
Lemma well_written_problem_accepted_witness :
  parse_equation latin1_only
    ([] ++ map digit_char [d3; d8; d0; d1] ++ [32%N] ++ lit "-" ++ [9%N]
        ++ map digit_char [d2] ++ [10%N]) =
  Ret (VEquation (mkEquation (lit "3801") (lit "-") (lit "2") 3799)).
Proof.
  apply (well_written_problem_accepted latin1_only [d3; d8; d0; d1] [d2]
           (lit "-") [] [32%N] [9%N] [10%N]);
    [ discriminate | discriminate | simpl; lia | simpl; lia | now right
    | constructor | repeat constructor | discriminate
    | repeat constructor | discriminate | repeat constructor ].
Defined.

(** ** Where an error message comes from *)

Section Causes.

Variable ext_class : char -> uclass.

(** When the loop leaves the function, it does so at the first problem
    that is not valid, with the message of its error code. *)
Lemma parse_loop_Return_inv (problems : list str) :
  forall (acc : list Equation) (v : str),
    parse_loop ext_class problems acc = Ret (Return v) ->
    exists (pre : list str) (equations : list Equation) (s : str)
           (rest : list str) (n : Z),
      problems = pre ++ s :: rest /\
      Forall2 (fun s eq => parse_equation ext_class s = Ret (VEquation eq))
              pre equations /\
      parse_equation ext_class s = Ret (VInt n) /\
      v = error_message n.
Proof.
  induction problems as [|s problems IH]; intros acc v H; [discriminate|].
  cbn [parse_loop] in H.
  destruct (parse_equation ext_class s) as [[eq|n]|e] eqn:Hs; cbn [bind] in H;
    [| |discriminate].
  - apply IH in H. destruct H as (pre & equations & s' & rest & n & -> & Hpre & Hs' & ->).
    exists (s :: pre), (eq :: equations), s', rest, n.
    repeat split; auto.
  - injection H as <-. exists [], [], s, problems, n. repeat split; auto.
Qed.

(** The converse of the first failure: when one of the three messages of the
    parser is returned, the problems before some problem are all valid, and
    that problem yields the error code of the message. *)
Theorem reported_error_has_a_cause (problems : list str) (show_solutions : bool)
    (n : Z) :
  n = ERR_IO \/ n = ERR_NDP \/ n = ERR_NTL ->
  arithmetic_arranger ext_class problems show_solutions = Ret (error_message n) ->
  exists (pre : list str) (equations : list Equation) (s : str) (rest : list str),
    problems = pre ++ s :: rest /\
    Forall2 (fun s eq => parse_equation ext_class s = Ret (VEquation eq))
            pre equations /\
    parse_equation ext_class s = Ret (VInt n).
Proof.
  intros Hn H. unfold arithmetic_arranger in H.
  destruct (len problems >? PROBLEM_LIMIT).
  { exfalso. destruct Hn as [-> | [-> | ->]]; discriminate. }
  destruct (parse_loop ext_class problems []) as [[equations|v]|e] eqn:Hloop;
    cbn [bind] in H; [| |discriminate].
  - exfalso. destruct equations as [|eq equations].
    + destruct show_solutions; destruct Hn as [-> | [-> | ->]]; discriminate.
    + destruct (format_equations_string_first eq equations show_solutions) as [r Hr].
      rewrite Hr in H. destruct Hn as [-> | [-> | ->]]; discriminate.
  - injection H as ->. apply parse_loop_Return_inv in Hloop.
    destruct Hloop as (pre & equations & s & rest & n' & -> & Hpre & Hs & E).
    exists pre, equations, s, rest. split; [reflexivity|]. split; [exact Hpre|].
    pose proof (parse_equation_codes _ _ _ Hs) as Hn'.
    assert (n' = n); [|now subst].
    destruct Hn as [-> | [-> | ->]]; destruct Hn' as [-> | [-> | ->]];
      try reflexivity; vm_compute in E; discriminate.
Qed.

(** What is wrong with a problem for which [parse_equation] returns an error
    code.  [ERR_NDP]: the first token, or else the third, is not numeric.
    [ERR_NTL]: both are numeric and one is longer than four characters.
    [ERR_IO]: both are numeric, neither is longer than four, and the second
    token is neither "+" nor "-". *)
Theorem error_code_cause (s : str) (n : Z) :
  parse_equation ext_class s = Ret (VInt n) ->
  exists a : str,
    index (split ext_class s) OP1_IDX = Ret a /\
    ((n = ERR_NDP /\ isnumeric ext_class a = false) \/
     exists b : str,
       index (split ext_class s) OP2_IDX = Ret b /\
       isnumeric ext_class a = true /\
       ((n = ERR_NDP /\ isnumeric ext_class b = false) \/
        (isnumeric ext_class b = true /\
         ((n = ERR_NTL /\ (4 < len a \/ 4 < len b)) \/
          (n = ERR_IO /\ len a <= 4 /\ len b <= 4 /\
           exists op : str,
             index (split ext_class s) SIGN_IDX = Ret op /\
             op <> lit "+" /\ op <> lit "-"))))).
Proof.
  unfold parse_equation, por, pand, DIGIT_LENGTH_LIMIT. intros H.
  destruct (index (split ext_class s) OP1_IDX) as [a|] eqn:Ha;
    cbn [bind] in H; [|discriminate].
  exists a. split; [reflexivity|].
  destruct (isnumeric ext_class a) eqn:Hna; cbn [negb bind] in H;
    [|injection H as <-; now left].
  right.
  destruct (index (split ext_class s) OP2_IDX) as [b|] eqn:Hb;
    cbn [bind] in H; [|discriminate].
  exists b. split; [reflexivity|]. split; [reflexivity|].
  destruct (isnumeric ext_class b) eqn:Hnb; cbn [negb bind] in H;
    [|injection H as <-; now left].
  right. split; [reflexivity|].
  destruct (len a >? 4) eqn:Hla; cbn [bind] in H.
  { injection H as <-. left. rewrite Z.gtb_ltb in Hla. apply Z.ltb_lt in Hla. auto. }
  destruct (len b >? 4) eqn:Hlb; cbn [bind] in H.
  { injection H as <-. left. rewrite Z.gtb_ltb in Hlb. apply Z.ltb_lt in Hlb. auto. }
  rewrite Z.gtb_ltb in Hla, Hlb. apply Z.ltb_ge in Hla, Hlb.
  destruct (index (split ext_class s) SIGN_IDX) as [op|] eqn:Hop;
    cbn [bind] in H; [|discriminate].
  destruct (str_eqb op (lit "+")) eqn:Hp; cbn [negb bind] in H.
  { exfalso. destruct (int_of_str ext_class a); cbn [bind] in H; [|discriminate].
    destruct (int_of_str ext_class b); cbn [bind] in H; discriminate. }
  destruct (str_eqb op (lit "-")) eqn:Hm; cbn [negb bind] in H.
  { exfalso. destruct (int_of_str ext_class a); cbn [bind] in H; [|discriminate].
    destruct (int_of_str ext_class b); cbn [bind] in H; discriminate. }
  injection H as <-. right. repeat split; try assumption.
  exists op. split; [reflexivity|].
  split; intros ->; discriminate.
Qed.

End Causes.

(** The cause of the length error of ["1 + 2"; "24 + 85215"; "x"]. *)
Lemma reported_error_has_a_cause_witness :
  exists (pre : list str) (equations : list Equation) (s : str) (rest : list str),
    [lit "1 + 2"; lit "24 + 85215"; lit "x"] = pre ++ s :: rest /\
    Forall2 (fun s eq => parse_equation latin1_only s = Ret (VEquation eq))
            pre equations /\
    parse_equation latin1_only s = Ret (VInt ERR_NTL).
Proof.
  apply (reported_error_has_a_cause latin1_only
           [lit "1 + 2"; lit "24 + 85215"; lit "x"] false ERR_NTL).
  - right. right. reflexivity.
  - vm_compute. reflexivity.
Defined.

(** The cause of the error code of "3 * 4". *)
Lemma error_code_cause_witness :
  exists a : str,
    index (split latin1_only (lit "3 * 4")) OP1_IDX = Ret a /\
    ((ERR_IO = ERR_NDP /\ isnumeric latin1_only a = false) \/
     exists b : str,
       index (split latin1_only (lit "3 * 4")) OP2_IDX = Ret b /\
       isnumeric latin1_only a = true /\
       ((ERR_IO = ERR_NDP /\ isnumeric latin1_only b = false) \/
        (isnumeric latin1_only b = true /\
         ((ERR_IO = ERR_NTL /\ (4 < len a \/ 4 < len b)) \/
          (ERR_IO = ERR_IO /\ len a <= 4 /\ len b <= 4 /\
           exists op : str,
             index (split latin1_only (lit "3 * 4")) SIGN_IDX = Ret op /\
             op <> lit "+" /\ op <> lit "-"))))).
Proof.
  apply (error_code_cause latin1_only (lit "3 * 4") ERR_IO).
  vm_compute. reflexivity.
Defined.
